(** * aeolus: grid-cell areas and the net horizontal flux through a box

    A shallow embedding of [src/aeolus/misc.py]
    ([vertical_cross_section_area], [net_horizontal_flux_to_region]) and of
    [MidpointNormalize.__call__] from [src/aeolus/plot/mpl.py].

    Numbers are modelled as real numbers ([R]): the floating-point rounding
    of numpy is not modelled.  Comparisons of the source ([<=], [<], [==])
    become the boolean functions [Rleb], [Rltb], [Reqb] below.

    The gridded "cube" objects of iris are modelled by what the two functions
    use of them: named dimension coordinates with points and optional bounds,
    scalar (auxiliary) coordinates, and data indexed by the positions along
    the dimension coordinates. *)

From Stdlib Require Import Reals Lra Lia List String Bool.
Import ListNotations.
Open Scope R_scope.

(* ------------------------------------------------------------------ *)
(** ** Decidable comparisons on reals *)

Definition Rleb (x y : R) : bool := if Rle_dec x y then true else false.
Definition Rltb (x y : R) : bool := if Rlt_dec x y then true else false.
Definition Reqb (x y : R) : bool := if Req_EM_T x y then true else false.

(** numpy's [np.deg2rad]. *)
Definition deg2rad (x : R) : R := x * (PI / 180).

(* ------------------------------------------------------------------ *)
(** ** Python exceptions, warnings and the error/warning monad *)

Inductive exc :=
| KeyError          (* missing dict key *)
| LookupError       (* no candidate value to snap to *)
| IndexError        (* list or tuple index out of range *)
| ValueError        (* raised by iris: bounds guessing, data shape *)
| CoordNotFound     (* iris.exceptions.CoordinateNotFoundError *)
| AttributeError    (* attribute access on [None] *)
| TypeError.        (* arithmetic on [None] *)

Inductive result (A : Type) :=
| Ok (a : A)
| Fail (e : exc).
Arguments Ok {A} a.
Arguments Fail {A} e.

(** numpy's [np.rint]: the nearest integer, a half going to the even one.
    [Int_part x] is the floor of [x]. *)
Definition rint (x : R) : Z :=
  let f := Int_part x in
  let r := x - IZR f in
  if Rltb r (1 / 2) then f
  else if Rltb (1 / 2) r then (f + 1)%Z
  else if Z.even f then f else (f + 1)%Z.

(** [np.round(x, 2)]: numpy scales by [10 ** 2], rounds with [rint] and
    scales back. *)
Definition np_round2 (x : R) : R := IZR (rint (x * 100)) / 100.

(** A warning of [warnings.warn] in [net_horizontal_flux_to_region]: the
    coordinate it is about ([this_coord]) and the distance printed in its
    message, [np.round(nearest - ll_val, 2)]. *)
Record warning := mkWarning { w_coord : string; w_delta : R }.

(** A computation returns a result together with the warnings it emitted;
    warnings emitted before an exception are kept. *)
Definition M (A : Type) : Type := (result A * list warning)%type.

Definition ret {A} (a : A) : M A := (Ok a, []).
Definition raise {A} (e : exc) : M A := (Fail e, []).
Definition warn (w : warning) : M unit := (Ok tt, [w]).

Definition bind {A B} (m : M A) (f : A -> M B) : M B :=
  match m with
  | (Ok a, w1) => let (r, w2) := f a in (r, w1 ++ w2)
  | (Fail e, w1) => (Fail e, w1)
  end.

Notation "x <- m ;; k" := (bind m (fun x => k))
  (at level 61, m at next level, right associativity).

Definition of_result {A} (r : result A) : M A := (r, []).

Definition of_option {A} (o : option A) (e : exc) : M A :=
  match o with Some a => ret a | None => raise e end.

Fixpoint mapM {A B} (f : A -> M B) (l : list A) : M (list B) :=
  match l with
  | [] => ret []
  | x :: xs => y <- f x ;; ys <- mapM f xs ;; ret (y :: ys)
  end.

Fixpoint mapR {A B} (f : A -> result B) (l : list A) : result (list B) :=
  match l with
  | [] => Ok []
  | x :: xs =>
      match f x with
      | Ok y => match mapR f xs with Ok ys => Ok (y :: ys) | Fail e => Fail e end
      | Fail e => Fail e
      end
  end.

(* ------------------------------------------------------------------ *)
(** ** Coordinates and cubes *)

(** The coordinates of the model output: a vertical coordinate, latitude
    and longitude. *)
Inductive Dim := Height | Latitude | Longitude.

Inductive Axis := AxisX | AxisY | AxisZ.

(** [iris.util.guess_coord_axis]: longitude is "X", latitude "Y", a
    height coordinate "Z". *)
Definition guess_coord_axis (d : Dim) : Axis :=
  match d with Longitude => AxisX | Latitude => AxisY | Height => AxisZ end.

Record Coord := mkCoord {
  cname : Dim;
  points : list R;
  bounds : option (list (R * R))
}.

(** A cube: its dimension coordinates (in dimension order), its scalar
    coordinates, and its data indexed by the position along each dimension. *)
Record Cube := mkCube {
  dim_coords : list Coord;
  aux_coords : list Coord;
  cdata : list nat -> R
}.

Definition shape (c : Cube) : list nat :=
  map (fun k => List.length (points k)) (dim_coords c).

(** [cube.coord(axis="Y")]: exactly one coordinate of that axis, else
    [CoordinateNotFoundError]. *)
Definition coord_by_axis (c : Cube) (a : Axis) : result Coord :=
  match filter (fun k => match guess_coord_axis (cname k), a with
                         | AxisX, AxisX | AxisY, AxisY | AxisZ, AxisZ => true
                         | _, _ => false end)
              (dim_coords c ++ aux_coords c) with
  | [k] => Ok k
  | _ => Fail CoordNotFound
  end.

(** [np.diff]. *)
Fixpoint diff (l : list R) : list R :=
  match l with
  | x :: ((y :: _) as t) => (y - x) :: diff t
  | _ => []
  end.

(** [np.clip(x, -90, 90)]. *)
Definition clip90 (x : R) : R :=
  if Rltb x (-90) then -90 else if Rltb 90 x then 90 else x.

(** The last step of iris's [Coord._guess_bounds]:
    [if self.name() in ("latitude", "grid_latitude") and self.units == "degree"]
    and [(points >= -90).all() and (points <= 90).all()], then
    [np.clip(bounds, -90, 90, out=bounds)]. *)
Definition lat_clip (d : Dim) (pts : list R) (b : list (R * R)) : list (R * R) :=
  match d with
  | Latitude =>
      if forallb (fun p => Rleb (-90) p && Rleb p 90) pts
      then map (fun c => (clip90 (fst c), clip90 (snd c))) b
      else b
  | _ => b
  end.

(** Bounds that all lie within [[-90, 90]]: the clip leaves them alone. *)
Definition within90 (b : list (R * R)) : Prop :=
  Forall (fun c => -90 <= fst c <= 90 /\ -90 <= snd c <= 90) b.

(** [Coord.guess_bounds()] of iris ([bound_position = 0.5]): a coordinate of
    length 1 is refused with a [ValueError]; otherwise, with
    [diffs = np.diff(points)] extended by its first element in front and its
    last element at the end, cell [i] is
    [(points[i] - diffs[i] * 0.5, points[i] + diffs[i+1] * 0.5)].
    For a latitude coordinate (in degrees) whose points all lie in
    [[-90, 90]], the bounds are then clipped to [[-90, 90]] ([lat_clip]).
    (The points of a dimension coordinate are strictly monotonic, an iris
    invariant, so the monotonicity check of iris never fires here; the
    coordinates are not circular.) *)
Definition guess_bounds (d : Dim) (pts : list R) : result (list (R * R)) :=
  match pts with
  | [] | [_] => Fail ValueError
  | _ =>
      let df := diff pts in
      let ext := hd 0 df :: df ++ [last df 0] in
      Ok (lat_clip d pts
            (map (fun i => (nth i pts 0 - nth i ext 0 * (1 / 2),
                            nth i pts 0 + nth (S i) ext 0 * (1 / 2)))
                 (seq 0 (List.length pts))))
  end.

(** The bounds the spec describes for a dimension coordinate without
    bounds: the midpoints between neighbouring points, the edge cells
    extrapolating the adjacent spacing. *)
Definition midpoint_bounds (pts : list R) : list (R * R) :=
  let n := List.length pts in
  map (fun i =>
         (match i with
          | O => nth 0 pts 0 - (nth 1 pts 0 - nth 0 pts 0) / 2
          | S i' => (nth i' pts 0 + nth i pts 0) / 2
          end,
          if Nat.eqb (S i) n
          then nth i pts 0 + (nth i pts 0 - nth (i - 1) pts 0) / 2
          else (nth i pts 0 + nth (S i) pts 0) / 2))
      (seq 0 n).

(** [n] evenly spaced points [a, a + d, a + 2d, ...]. *)
Fixpoint uniform (a d : R) (n : nat) : list R :=
  match n with
  | O => []
  | S m => a :: uniform (a + d) d m
  end.

(** [if not dim_coord.has_bounds(): dim_coord.guess_bounds()]. *)
Definition ensure_bounds (k : Coord) : result Coord :=
  match bounds k with
  | Some _ => Ok k
  | None =>
      match guess_bounds (cname k) (points k) with
      | Ok b => Ok (mkCoord (cname k) (points k) (Some b))
      | Fail e => Fail e
      end
  end.

Definition width (b : R * R) : R := snd b - fst b.

Definition strip_bounds (k : Coord) : Coord := mkCoord (cname k) (points k) None.

(** [vertical_cross_section_area(cube2d, r_planet)], lines 12-33:
    - [m_per_deg = (pi / 180) * r_planet], times the cosine of the first
      point of the "Y" coordinate when [dim_coords[1]] is an "X" coordinate
      (an [IndexError] when the cube has fewer than two dimensions);
    - bounds guessed for every dimension coordinate that has none;
    - area [(z_bounds[:,1] - z_bounds[:,0])[:, None]
      * ((x_bounds[:,1] - x_bounds[:,0])[None, :] * m_per_deg)];
    - [cube2d.copy(data=...)] requires that shape, so a cube of more than
      two dimensions fails there with a [ValueError];
    - the result's dimension coordinates lose their bounds. *)
Definition vertical_cross_section_area (cube2d : Cube) (r_planet : R) : result Cube :=
  match dim_coords cube2d with
  | d0 :: d1 :: rest =>
      let m0 := (PI / 180) * r_planet in
      let m_per_deg :=
        match guess_coord_axis (cname d1) with
        | AxisX =>
            match coord_by_axis cube2d AxisY with
            | Ok y => Ok (m0 * cos (deg2rad (hd 0 (points y))))
            | Fail e => Fail e
            end
        | _ => Ok m0
        end in
      match m_per_deg with
      | Fail e => Fail e
      | Ok m =>
          match mapR ensure_bounds (dim_coords cube2d) with
          | Fail e => Fail e
          | Ok bcs =>
              let x_bounds := match bounds (nth 1 bcs d1) with Some b => b | None => [] end in
              let z_bounds := match bounds (nth 0 bcs d0) with Some b => b | None => [] end in
              match rest with
              | [] =>
                  Ok (mkCube (map strip_bounds bcs) (aux_coords cube2d)
                        (fun ix => match ix with
                                   | [i; j] => width (nth i z_bounds (0, 0))
                                               * (width (nth j x_bounds (0, 0)) * m)
                                   | _ => 0
                                   end))
              | _ => Fail ValueError
              end
          end
      end
  | _ => Fail IndexError
  end.

(* ------------------------------------------------------------------ *)
(** ** The input cubes and [iris.Constraint] extraction *)

(** The scalar cube of [net_horizontal_flux_to_region]: a
    (height, latitude, longitude) cube whose dimension coordinates carry no
    bounds, so that iris compares the cells of a constraint by their points.
    [values k i j] is the datum at height [k], latitude [i], longitude [j]. *)
Record Cube3 := mkCube3 {
  z_points : list R;
  lat_points : list R;
  lon_points : list R;
  values : nat -> nat -> nat -> R
}.

(** The wind components [u] and [v] are given on the scalar cube's grid. *)
Definition with_values (c : Cube3) (f : nat -> nat -> nat -> R) : Cube3 :=
  mkCube3 (z_points c) (lat_points c) (lon_points c) f.

Definition coord_points3 (c : Cube3) (d : Dim) : list R :=
  match d with
  | Height => z_points c
  | Latitude => lat_points c
  | Longitude => lon_points c
  end.

(** An [iris.Constraint]: an optional predicate on the points of each
    coordinate. *)
Record Constr := mkConstr {
  cz : option (R -> bool);
  clat : option (R -> bool);
  clon : option (R -> bool)
}.

Definition constr_on (d : Dim) (p : R -> bool) : Constr :=
  match d with
  | Height => mkConstr (Some p) None None
  | Latitude => mkConstr None (Some p) None
  | Longitude => mkConstr None None (Some p)
  end.

Definition opt_and (a b : option (R -> bool)) : option (R -> bool) :=
  match a, b with
  | Some p, Some q => Some (fun x => p x && q x)
  | Some p, None => Some p
  | None, q => q
  end.

(** [c1 & c2]. *)
Definition cand (c1 c2 : Constr) : Constr :=
  mkConstr (opt_and (cz c1) (cz c2)) (opt_and (clat c1) (clat c2))
           (opt_and (clon c1) (clon c2)).

Definition constr_of (c : Constr) (d : Dim) : option (R -> bool) :=
  match d with Height => cz c | Latitude => clat c | Longitude => clon c end.

(** What extraction keeps of one dimension: a list of positions (the
    dimension stays), or a single position (iris indexes with an integer,
    so the dimension becomes a scalar coordinate). *)
Inductive Sel := Keep (idx : list nat) | Squeeze (i : nat).

Definition select_idx (p : R -> bool) (pts : list R) : list nat :=
  filter (fun i => p (nth i pts 0)) (seq 0 (List.length pts)).

(** An unconstrained dimension is kept whole; a constrained one keeps the
    positions whose point satisfies the predicate; none at all makes the
    whole extraction [None]. *)
Definition select (pts : list R) (p : option (R -> bool)) : option Sel :=
  match p with
  | None => Some (Keep (seq 0 (List.length pts)))
  | Some f =>
      match select_idx f pts with
      | [] => None
      | [i] => Some (Squeeze i)
      | idx => Some (Keep idx)
      end
  end.

Definition sel_coords (d : Dim) (pts : list R) (s : Sel) : list Coord * list Coord :=
  match s with
  | Keep idx => ([mkCoord d (map (fun i => nth i pts 0) idx) None], [])
  | Squeeze i => ([], [mkCoord d [nth i pts 0] None])
  end.

(** The original position along one dimension, consuming the index of a
    kept dimension. *)
Definition pick (s : Sel) (ix : list nat) : nat * list nat :=
  match s with
  | Keep idx => match ix with p :: rest => (nth p idx 0%nat, rest) | [] => (0%nat, []) end
  | Squeeze i => (i, ix)
  end.

(** [cube.extract(constraint)]. *)
Definition extract (c : Cube3) (k : Constr) : option Cube :=
  match select (z_points c) (cz k), select (lat_points c) (clat k),
        select (lon_points c) (clon k) with
  | Some sz, Some sl, Some so =>
      let (dz, az) := sel_coords Height (z_points c) sz in
      let (dl, al) := sel_coords Latitude (lat_points c) sl in
      let (dn, an) := sel_coords Longitude (lon_points c) so in
      Some (mkCube (dz ++ dl ++ dn) (az ++ al ++ an)
              (fun ix => let (k0, ix1) := pick sz ix in
                         let (i0, ix2) := pick sl ix1 in
                         let (j0, _) := pick so ix2 in
                         values c k0 i0 j0))
  | _, _, _ => None
  end.

(** The cells above are compared with a number by their points: iris's
    rule for a coordinate without bounds, the only kind [Cube3] has.  For a
    coordinate with bounds iris compares a [Cell(point, bound)] with a
    number [v] by its bounds ([Cell.__common_cmp__]): [cell <= v] (and
    [cell > v]) by the smaller bound, [cell >= v] (and [cell < v]) by the
    larger one. *)
Record Cell := mkCell { cpoint : R; cbound : option (R * R) }.

Definition cell_le (c : Cell) (v : R) : bool :=
  match cbound c with
  | None => Rleb (cpoint c) v
  | Some b => Rleb (Rmin (fst b) (snd b)) v
  end.

Definition cell_ge (c : Cell) (v : R) : bool :=
  match cbound c with
  | None => Rleb v (cpoint c)
  | Some b => Rleb v (Rmax (fst b) (snd b))
  end.

(** The lambdas of lines 58-66 applied to a cell [x]: Python evaluates
    [other_min <= x] as [x >= other_min] and [other_max >= x] as
    [x <= other_max]. *)
Definition other_pred_cell (other_min other_max : R) : Cell -> bool :=
  if Rleb other_min other_max
  then fun x => cell_ge x other_min && cell_le x other_max
  else fun x => cell_le x other_max || cell_ge x other_min.

(** [coord.cells()]: each point with its bounds, if the coordinate has any. *)
Definition coord_cells (pts : list R) (bnds : option (list (R * R))) : list Cell :=
  match bnds with
  | None => map (fun p => mkCell p None) pts
  | Some bs => map (fun pb => mkCell (fst pb) (Some (snd pb))) (combine pts bs)
  end.

(** The positions a constraint with a callable keeps on one coordinate:
    [np.array([call_func(cell) for cell in coord.cells()])]. *)
Definition select_cells (p : Cell -> bool) (cs : list Cell) : list nat :=
  filter (fun i => p (nth i cs (mkCell 0 None))) (seq 0 (List.length cs)).

(** Cube arithmetic [a * b] on cubes of the same grid. *)
Definition cube_mul (a b : Cube) : Cube :=
  mkCube (dim_coords a) (aux_coords a) (fun ix => cdata a ix * cdata b ix).

Fixpoint all_indices (sh : list nat) : list (list nat) :=
  match sh with
  | [] => [[]]
  | n :: ns => flat_map (fun i => map (cons i) (all_indices ns)) (seq 0 n)
  end.

(** [cube.collapsed(cube.dim_coords, iris.analysis.SUM)]. *)
Definition collapsed_sum (c : Cube) : R :=
  fold_right Rplus 0 (map (cdata c) (all_indices (shape c))).

(* ------------------------------------------------------------------ *)
(** ** [net_horizontal_flux_to_region] *)

(** [s[:-1]]. *)
Definition drop_last (s : string) : string := substring 0 (String.length s - 1) s.

(** [ll_other = {"longitude": "latitude", "latitude": "longitude"}]. *)
Definition ll_other (s : string) : option string :=
  if String.eqb s "longitude"%string then Some "latitude"%string
  else if String.eqb s "latitude"%string then Some "longitude"%string
  else None.

(** The coordinate of the cube named [s]. *)
Definition dim_of_name (s : string) : option Dim :=
  if String.eqb s "longitude"%string then Some Longitude
  else if String.eqb s "latitude"%string then Some Latitude
  else None.

(** [latlon_box_dict[k]] on the (ordered) box dictionary. *)
Fixpoint lookup (k : string) (box : list (string * R)) : option R :=
  match box with
  | [] => None
  | (k', x) :: rest => if String.eqb k k' then Some x else lookup k rest
  end.

(** Modelled from the spec: [nearest_coord_value] of [aeolus.coord_utils]
    (not among the sources), "snap the requested fixed value to the nearest
    available grid value on that axis", failing with a [LookupError] when
    the axis has no value.  Of equally near values the first is taken. *)
Definition nearest_coord_value (c : Cube3) (d : Dim) (val : R) : result R :=
  match coord_points3 c d with
  | [] => Fail LookupError
  | p :: ps =>
      Ok (fold_left (fun best q => if Rltb (Rabs (q - val)) (Rabs (best - val))
                                   then q else best) ps p)
  end.

(** The free-axis predicate of lines 58-67. *)
Definition other_pred (other_min other_max : R) : R -> bool :=
  if Rleb other_min other_max
  then fun x => Rleb other_min x && Rleb x other_max
  else fun x => Rleb x other_max || Rleb other_min x.

(** Lines 45-67 of one loop iteration: the fixed coordinate, the snapped
    value with its warning, and the selection constraint. *)
Definition boundary_constraint (scalar_cube : Cube3) (latlon_box_dict : list (string * R))
    (vertical_constraint : option (R -> bool)) (entry : string * R) : M (Dim * Constr) :=
  let (ll_coord, ll_val) := entry in
  let this_coord := drop_last ll_coord in
  other_coord <- of_option (ll_other this_coord) KeyError ;;
  this_dim <- of_option (dim_of_name this_coord) CoordNotFound ;;
  other_dim <- of_option (dim_of_name other_coord) CoordNotFound ;;
  nearest <- of_result (nearest_coord_value scalar_cube this_dim ll_val) ;;
  _ <- (if Rltb 10 (Rabs (nearest - ll_val))
        then warn (mkWarning this_coord (np_round2 (nearest - ll_val)))
        else ret tt) ;;
  let c1 := constr_on this_dim (fun x => Reqb x nearest) in
  other_min <- of_option (lookup (other_coord ++ "0")%string latlon_box_dict) KeyError ;;
  other_max <- of_option (lookup (other_coord ++ "1")%string latlon_box_dict) KeyError ;;
  let c2 := match vertical_constraint with
            | Some p => cand c1 (constr_on Height p)
            | None => c1
            end in
  ret (this_dim, cand c2 (constr_on other_dim (other_pred other_min other_max))).

(** The warnings of one loop iteration given the snapped value. *)
Definition snap_warnings (this_coord : string) (nearest ll_val : R) : list warning :=
  if Rltb 10 (Rabs (nearest - ll_val))
  then [mkWarning this_coord (np_round2 (nearest - ll_val))] else [].

(** The constraint one loop iteration builds. *)
Definition boundary_cnstr (this_dim other_dim : Dim) (nearest other_min other_max : R)
    (vertical_constraint : option (R -> bool)) : Constr :=
  let c1 := constr_on this_dim (fun x => Reqb x nearest) in
  cand (match vertical_constraint with
        | Some p => cand c1 (constr_on Height p)
        | None => c1
        end) (constr_on other_dim (other_pred other_min other_max)).

(** [vertical_cross_section_area(cube, ...)] on the result of an extraction,
    which is [None] when nothing matched. *)
Definition area_of_extracted (cube : option Cube) (r_planet : R) : result Cube :=
  match cube with
  | Some k => vertical_cross_section_area k r_planet
  | None => Fail AttributeError
  end.

(** Lines 68-77: the total flux through one boundary. *)
Definition flux_of_constraint (scalar_cube : Cube3) (u v : nat -> nat -> nat -> R)
    (r_planet : R) (this_dim : Dim) (vcross_cnstr : Constr) : M R :=
  vcross_area <- of_result (area_of_extracted (extract scalar_cube vcross_cnstr) r_planet) ;;
  let wind := match this_dim with Longitude => u | _ => v end in
  match extract (with_values scalar_cube wind) vcross_cnstr,
        extract scalar_cube vcross_cnstr with
  | Some w, Some s => ret (collapsed_sum (cube_mul (cube_mul w s) vcross_area))
  | _, _ => raise TypeError
  end.

(** One iteration of the loop of lines 44-78. *)
Definition boundary_flux (scalar_cube : Cube3) (latlon_box_dict : list (string * R))
    (u v : nat -> nat -> nat -> R) (r_planet : R) (vertical_constraint : option (R -> bool))
    (entry : string * R) : M R :=
  p <- boundary_constraint scalar_cube latlon_box_dict vertical_constraint entry ;;
  flux_of_constraint scalar_cube u v r_planet (fst p) (snd p).

(** [net_horizontal_flux_to_region(scalar_cube, latlon_box_dict, u, v,
    r_planet, vertical_constraint)]: the loop over the box entries in
    their order, then [(total_h_fluxes[0] - total_h_fluxes[1])
    + (total_h_fluxes[2] - total_h_fluxes[3])]. *)
Definition net_horizontal_flux_to_region (scalar_cube : Cube3)
    (latlon_box_dict : list (string * R)) (u v : nat -> nat -> nat -> R) (r_planet : R)
    (vertical_constraint : option (R -> bool)) : M R :=
  total_h_fluxes <- mapM (boundary_flux scalar_cube latlon_box_dict u v r_planet
                                        vertical_constraint) latlon_box_dict ;;
  f0 <- of_option (nth_error total_h_fluxes 0) IndexError ;;
  f1 <- of_option (nth_error total_h_fluxes 1) IndexError ;;
  f2 <- of_option (nth_error total_h_fluxes 2) IndexError ;;
  f3 <- of_option (nth_error total_h_fluxes 3) IndexError ;;
  ret ((f0 - f1) + (f2 - f3)).

(* ------------------------------------------------------------------ *)
(** ** [MidpointNormalize.__call__] (src/aeolus/plot/mpl.py) *)

(** Where [np.interp] places [x] in [xp] ([binary_search_with_guess] of
    numpy, whose linear search is used for arrays of at most 8 points):
    [Below] when [x < xp[0]], [Above] when [x > xp[-1]], else [At j] with
    [j] the last index of the run [xp[1] <= x, xp[2] <= x, ...]. *)
Inductive place := Below | At (j : nat) | Above.

Fixpoint scan (x : R) (xs : list R) (i : nat) : nat :=
  match xs with
  | [] => i
  | y :: ys => if Rleb y x then scan x ys (S i) else i
  end.

Definition search (x : R) (xp : list R) : place :=
  if Rltb (last xp 0) x then Above
  else if Rltb x (hd 0 xp) then Below
  else At (scan x (tl xp) 1 - 1).

(** [np.interp(x, xp, fp)] with the default [left = fp[0]],
    [right = fp[-1]]: at index [j] the value [fp[j]] is returned when
    [j] is the last index or [xp[j] == x], else
    [slope * (x - xp[j]) + fp[j]] with
    [slope = (fp[j+1] - fp[j]) / (xp[j+1] - xp[j])]. *)
Definition np_interp (x : R) (xp fp : list R) : R :=
  match search x xp with
  | Below => hd 0 fp
  | Above => last fp 0
  | At j =>
      if Nat.eqb j (List.length xp - 1) then nth j fp 0
      else if Reqb (nth j xp 0) x then nth j fp 0
      else (nth (S j) fp 0 - nth j fp 0) / (nth (S j) xp 0 - nth j xp 0)
             * (x - nth j xp 0) + nth j fp 0
  end.

Record MidpointNormalize := mkMidpointNormalize {
  vmin : R;
  vmax : R;
  midpoint : R
}.

(** [x, y = [self.vmin, self.midpoint, self.vmax], [0, 0.5, 1]];
    [np.ma.masked_array(np.interp(value, x, y))]. *)
Definition mn_call (n : MidpointNormalize) (value : R) : R :=
  np_interp value [vmin n; midpoint n; vmax n] [0; 1 / 2; 1].

(** The piecewise-linear map the normalisation is meant to be. *)
Definition mn_pieces (n : MidpointNormalize) (x : R) : R :=
  if Rltb x (vmin n) then 0
  else if Rltb x (midpoint n) then 1 / 2 * ((x - vmin n) / (midpoint n - vmin n))
  else if Rltb x (vmax n) then 1 / 2 + 1 / 2 * ((x - midpoint n) / (vmax n - midpoint n))
  else 1.

(* ------------------------------------------------------------------ *)
(** ** Example inputs *)

(** The box dictionary [{"longitude0": lon0, "longitude1": lon1,
    "latitude0": lat0, "latitude1": lat1}], in this key order. *)
Definition latlon_box (lon0 lon1 lat0 lat1 : R) : list (string * R) :=
  [("longitude0", lon0); ("longitude1", lon1); ("latitude0", lat0); ("latitude1", lat1)]%string.

(** A 2 x 2 x 2 field of ones on heights [0, 1], latitudes [0, 10] and
    longitudes [0, 10]. *)
Definition ex_cube : Cube3 := mkCube3 [0; 1] [0; 10] [0; 10] (fun _ _ _ => 1).

(** A wind equal to 1 on the first longitude and 0 elsewhere. *)
Definition ex_u : nat -> nat -> nat -> R := fun _ _ j => if Nat.eqb j 0 then 1 else 0.

(** A wind component that is zero everywhere. *)
Definition no_wind : nat -> nat -> nat -> R := fun _ _ _ => 0.

(* ================================================================== *)
(** * Properties *)

(** ** Reasoning about the comparisons *)

Lemma Rleb_true_iff (x y : R) : Rleb x y = true <-> x <= y.
Proof. unfold Rleb; destruct (Rle_dec x y); split; intros; auto; discriminate. Qed.

Lemma Rltb_true_iff (x y : R) : Rltb x y = true <-> x < y.
Proof. unfold Rltb; destruct (Rlt_dec x y); split; intros; auto; discriminate. Qed.

Lemma Reqb_true_iff (x y : R) : Reqb x y = true <-> x = y.
Proof. unfold Reqb; destruct (Req_EM_T x y); split; intros; auto; discriminate. Qed.

(** Case analysis on every comparison left in the goal. *)
Ltac rcases :=
  repeat (cbn -[Rle_dec Rlt_dec Req_EM_T Rabs PI cos];
    match goal with
    | |- context [Rleb ?a ?b] => unfold Rleb
    | |- context [Rltb ?a ?b] => unfold Rltb
    | |- context [Reqb ?a ?b] => unfold Reqb
    | |- context [Rle_dec ?a ?b] => destruct (Rle_dec a b)
    | |- context [Rlt_dec ?a ?b] => destruct (Rlt_dec a b)
    | |- context [Req_EM_T ?a ?b] => destruct (Req_EM_T a b)
    end); cbn -[Rle_dec Rlt_dec Req_EM_T Rabs PI cos].

(** Evaluation of a closed call: every comparison of concrete reals is
    decided by [lra]. *)
Ltac reval :=
  repeat (cbn -[Rle_dec Rlt_dec Req_EM_T Rcase_abs PI cos Rdiv];
    match goal with
    | |- context [other_pred ?a ?b] => unfold other_pred
    | |- context [clip90 ?a] => unfold clip90
    | |- context [Rleb ?a ?b] => unfold Rleb
    | |- context [Rltb ?a ?b] => unfold Rltb
    | |- context [Reqb ?a ?b] => unfold Reqb
    | |- context [Rabs ?a] => unfold Rabs
    | |- context [Rcase_abs ?a] => destruct (Rcase_abs a); [try lra | try lra]
    | |- context [Rle_dec ?a ?b] => destruct (Rle_dec a b); [try lra | try lra]
    | |- context [Rlt_dec ?a ?b] => destruct (Rlt_dec a b); [try lra | try lra]
    | |- context [Req_EM_T ?a ?b] => destruct (Req_EM_T a b); [try lra | try lra]
    end); cbn -[Rle_dec Rlt_dec Req_EM_T Rcase_abs PI cos Rdiv].

Lemma mn_call_pieces (n : MidpointNormalize) (x : R) :
  vmin n <= midpoint n <= vmax n -> mn_call n x = mn_pieces n x.
Proof.
  destruct n as [a c b]; cbn; intros [H1 H2].
  unfold mn_call, mn_pieces, np_interp, search, Rleb, Rltb, Reqb; cbn.
  rcases; try lra; try field; try lra.
  all: subst; unfold Rdiv; ring.
Qed.

Lemma frac_01 (t d : R) : 0 < d -> 0 <= t <= d -> 0 <= t / d <= 1.
Proof.
  intros Hd [H0 H1]; split.
  - unfold Rdiv; apply Rmult_le_pos; [lra | left; apply Rinv_0_lt_compat; lra].
  - apply (Rmult_le_reg_r d); [lra |]. unfold Rdiv; rewrite Rmult_assoc, Rinv_l; lra.
Qed.

Lemma frac_mono (s t d : R) : 0 < d -> s <= t -> s / d <= t / d.
Proof.
  intros Hd H; unfold Rdiv; apply Rmult_le_compat_r; [left; apply Rinv_0_lt_compat |]; lra.
Qed.

Section Pieces.
Variable n : MidpointNormalize.
Hypothesis Hord : vmin n <= midpoint n <= vmax n.

Lemma pieces_low (x : R) : x < midpoint n -> 0 <= mn_pieces n x <= 1 / 2.
Proof.
  intros Hx; unfold mn_pieces; rcases; try lra.
  pose proof (frac_01 (x - vmin n) (midpoint n - vmin n)); lra.
Qed.

Lemma pieces_high (x : R) : midpoint n <= x -> 1 / 2 <= mn_pieces n x <= 1.
Proof.
  intros Hx; unfold mn_pieces; rcases; try lra.
  pose proof (frac_01 (x - midpoint n) (vmax n - midpoint n)); lra.
Qed.

Lemma pieces_mono (x y : R) : x <= y -> mn_pieces n x <= mn_pieces n y.
Proof.
  intros Hxy.
  destruct (Rlt_dec x (midpoint n)) as [Hx | Hx]; destruct (Rlt_dec y (midpoint n)) as [Hy | Hy].
  - unfold mn_pieces; rcases; try lra;
      try (pose proof (frac_01 (y - vmin n) (midpoint n - vmin n)); lra).
    pose proof (frac_mono (x - vmin n) (y - vmin n) (midpoint n - vmin n)); lra.
  - pose proof (pieces_low x Hx); pose proof (pieces_high y (Rnot_lt_le _ _ Hy)); lra.
  - lra.
  - unfold mn_pieces; rcases; try lra;
      try (pose proof (frac_01 (x - midpoint n) (vmax n - midpoint n)); lra).
    pose proof (frac_mono (x - midpoint n) (y - midpoint n) (vmax n - midpoint n)); lra.
Qed.
End Pieces.

(** ** MidpointNormalize *)

(** C10 (amended): for [vmin <= midpoint <= vmax], [MidpointNormalize.__call__]
    is non-decreasing, is 0 below [vmin] and 1 from [vmax] on, is linear from
    0 at [vmin] to 1/2 at [midpoint] on [[vmin, midpoint)] and linear from
    1/2 at [midpoint] towards 1 on [[midpoint, vmax)]; where two anchors
    coincide the shared point takes the later anchor's value
    ([vmin = midpoint < vmax] maps to 1/2, [midpoint = vmax] maps to 1). *)
Theorem mn_call_piecewise_monotone (n : MidpointNormalize)
    (Hord : vmin n <= midpoint n <= vmax n) :
  (forall x y, x <= y -> mn_call n x <= mn_call n y) /\
  (forall x, x < vmin n -> mn_call n x = 0) /\
  (forall x, vmax n <= x -> mn_call n x = 1) /\
  (forall x, vmin n <= x < midpoint n ->
     mn_call n x = 1 / 2 * ((x - vmin n) / (midpoint n - vmin n))) /\
  (forall x, midpoint n <= x < vmax n ->
     mn_call n x = 1 / 2 + 1 / 2 * ((x - midpoint n) / (vmax n - midpoint n))) /\
  (vmin n < midpoint n -> mn_call n (vmin n) = 0) /\
  (midpoint n < vmax n -> mn_call n (midpoint n) = 1 / 2) /\
  (vmin n = midpoint n -> midpoint n < vmax n -> mn_call n (vmin n) = 1 / 2) /\
  (midpoint n = vmax n -> mn_call n (midpoint n) = 1).
Proof.
  repeat split; intros;
    repeat rewrite (mn_call_pieces n) by exact Hord.
  - apply pieces_mono; assumption.
  - unfold mn_pieces; rcases; lra.
  - unfold mn_pieces; rcases; lra.
  - unfold mn_pieces; rcases; lra.
  - unfold mn_pieces; rcases; lra.
  - unfold mn_pieces; rcases; try lra; unfold Rdiv; ring.
  - unfold mn_pieces; rcases; try lra; unfold Rdiv; ring.
  - unfold mn_pieces; rcases; try lra; rewrite H; unfold Rdiv; ring.
  - unfold mn_pieces; rcases; lra.
Qed.

Lemma mn_call_piecewise_monotone_witness :
  let n := mkMidpointNormalize (-1) 2 0 in
  vmin n <= midpoint n <= vmax n /\ mn_call n 0 = 1 / 2 /\ mn_call n 3 = 1.
Proof.
  intros n.
  assert (Hn : vmin n <= midpoint n <= vmax n) by (cbn; lra).
  destruct (mn_call_piecewise_monotone n Hn) as (_ & _ & Hhi & _ & _ & _ & Hmid & _).
  split; [exact Hn | split].
  - apply Hmid; cbn; lra.
  - apply Hhi; cbn; lra.
Defined.

(** C10 (counterexample): with [vmin = midpoint = 0] and [vmax = 1] (so
    [vmin <= midpoint <= vmax]) the value [vmin] is mapped to 1/2, not 0. *)
Lemma mn_call_vmin_eq_midpoint :
  let n := mkMidpointNormalize 0 1 0 in
  vmin n <= midpoint n <= vmax n /\ mn_call n (vmin n) = 1 / 2 /\ mn_call n (vmin n) <> 0.
Proof.
  intros n; unfold n, mn_call, np_interp, search; cbn.
  rcases; lra.
Qed.

(** ** Bounds guessing *)

Lemma diff_length (l : list R) : List.length (diff l) = (List.length l - 1)%nat.
Proof.
  induction l as [|x [|y t] IH]; cbn in *; try reflexivity.
  rewrite IH; cbn; lia.
Qed.

Lemma diff_nth (l : list R) (j : nat) :
  (S j < List.length l)%nat -> nth j (diff l) 0 = nth (S j) l 0 - nth j l 0.
Proof.
  revert j; induction l as [|x [|y t] IH]; intros j Hj; cbn in *; try lia.
  destruct j as [|j]; [reflexivity |].
  rewrite IH by (cbn; lia); reflexivity.
Qed.

Lemma last_nth_R (l : list R) :
  l <> [] -> last l 0 = nth (List.length l - 1) l 0.
Proof.
  induction l as [|x [|y t] IH]; intros Hne; [congruence | reflexivity |].
  change (last (x :: y :: t) 0) with (last (y :: t) 0).
  rewrite IH by discriminate; cbn; rewrite Nat.sub_0_r.
  destruct (List.length t) eqn:E; reflexivity.
Qed.

Section GuessBounds.
Variable pts : list R.
Hypothesis Hlen : (2 <= List.length pts)%nat.
Let d := diff pts.
Let ext := hd 0 d :: d ++ [last d 0].

Lemma ext_first : nth 0 ext 0 = nth 1 pts 0 - nth 0 pts 0.
Proof.
  unfold ext, d; cbn.
  rewrite <- (diff_nth pts 0) by lia.
  destruct (diff pts); reflexivity.
Qed.

Lemma ext_inner (i : nat) :
  (1 <= i)%nat -> (i < List.length pts)%nat -> nth i ext 0 = nth i pts 0 - nth (i - 1) pts 0.
Proof.
  intros H1 H2; destruct i as [|i]; [lia |].
  unfold ext, d; cbn [nth].
  rewrite app_nth1 by (rewrite diff_length; lia).
  rewrite diff_nth by lia.
  replace (S i - 1)%nat with i by lia; reflexivity.
Qed.

Lemma ext_last :
  nth (List.length pts) ext 0
  = nth (List.length pts - 1) pts 0 - nth (List.length pts - 2) pts 0.
Proof.
  unfold ext, d.
  destruct (List.length pts) as [|m] eqn:E; [lia |]; cbn [nth].
  rewrite app_nth2 by (rewrite diff_length; lia).
  rewrite diff_length, E.
  replace (m - (S m - 1))%nat with 0%nat by lia; cbn [nth].
  assert (Hne : diff pts <> []).
  { intros Hd; pose proof (diff_length pts) as L; rewrite Hd, E in L; cbn in L; lia. }
  rewrite last_nth_R by exact Hne.
  rewrite diff_length, E, diff_nth by lia.
  replace (S (S m - 1 - 1)) with (S m - 1)%nat by lia.
  replace (S m - 1 - 1)%nat with (S m - 2)%nat by lia; reflexivity.
Qed.

End GuessBounds.

(** Iris's guessed bounds are the midpoint bounds of the spec, clipped for
    latitude, for every coordinate of at least two points. *)
Lemma guess_bounds_midpoint (d : Dim) (pts : list R) :
  (2 <= List.length pts)%nat ->
  guess_bounds d pts = Ok (lat_clip d pts (midpoint_bounds pts)).
Proof.
  intros Hlen.
  assert (Hg : guess_bounds d pts =
    Ok (lat_clip d pts (map (fun i => (nth i pts 0 - nth i (hd 0 (diff pts) :: diff pts ++ [last (diff pts) 0]) 0 * (1 / 2),
                       nth i pts 0 + nth (S i) (hd 0 (diff pts) :: diff pts ++ [last (diff pts) 0]) 0 * (1 / 2)))
            (seq 0 (List.length pts))))).
  { destruct pts as [|x [|y t]]; cbn in Hlen; try lia; reflexivity. }
  rewrite Hg; unfold midpoint_bounds; do 2 f_equal.
  apply map_ext_in; intros i Hi; apply in_seq in Hi.
  f_equal.
  - destruct i as [|i].
    + rewrite ext_first by exact Hlen; lra.
    + rewrite ext_inner by (auto; lia).
      replace (S i - 1)%nat with i by lia; lra.
  - destruct (Nat.eqb (S i) (List.length pts)) eqn:E.
    + apply Nat.eqb_eq in E; rewrite E, ext_last by exact Hlen.
      replace (List.length pts - 1)%nat with i by lia.
      replace (List.length pts - 2)%nat with (i - 1)%nat by lia; lra.
    + apply Nat.eqb_neq in E.
      rewrite ext_inner by (auto; lia).
      replace (S i - 1)%nat with i by lia; lra.
Qed.

(** Proves [within90 (midpoint_bounds pts)] for concrete points. *)
Ltac solve_within90 :=
  unfold within90, midpoint_bounds; cbn;
  repeat first [apply Forall_nil | apply Forall_cons];
  cbv beta; cbn [fst snd]; repeat split; lra.

Lemma clip90_id (x : R) : -90 <= x <= 90 -> clip90 x = x.
Proof. intros H; unfold clip90; reval; lra. Qed.

(** The clip changes nothing when the bounds of a latitude coordinate
    already lie within [[-90, 90]]. *)
Lemma lat_clip_id (d : Dim) (pts : list R) (b : list (R * R)) :
  (d = Latitude -> within90 b) -> lat_clip d pts b = b.
Proof.
  intros H; destruct d; try reflexivity; cbn.
  destruct (forallb _ pts); [| reflexivity].
  specialize (H eq_refl); unfold within90 in H.
  induction H as [|[l u] b [Hl Hu] _ IH]; [reflexivity |]; cbn in *.
  rewrite IH, !clip90_id by assumption; reflexivity.
Qed.

Lemma guess_bounds_midpoint_unclipped (d : Dim) (pts : list R) :
  (2 <= List.length pts)%nat ->
  (d = Latitude -> within90 (midpoint_bounds pts)) ->
  guess_bounds d pts = Ok (midpoint_bounds pts).
Proof.
  intros Hlen Hin; rewrite guess_bounds_midpoint by exact Hlen.
  rewrite lat_clip_id by exact Hin; reflexivity.
Qed.

(** ** [vertical_cross_section_area] *)




Lemma uniform_length (a d : R) (n : nat) : List.length (uniform a d n) = n.
Proof. revert a; induction n; intros a; cbn; [reflexivity | rewrite IHn; reflexivity]. Qed.

Lemma nth_uniform (a d : R) (n i : nat) :
  (i < n)%nat -> nth i (uniform a d n) 0 = a + INR i * d.
Proof.
  revert a i; induction n as [|n IH]; intros a i Hi; [lia |].
  destruct i as [|i]; cbn [uniform nth].
  - cbn; ring.
  - rewrite IH by lia; rewrite S_INR; ring.
Qed.

(** Every midpoint cell of evenly spaced points is [d] wide. *)
Lemma width_midpoint_uniform (a d : R) (n i : nat) :
  (2 <= n)%nat -> (i < n)%nat ->
  width (nth i (midpoint_bounds (uniform a d n)) (0, 0)) = d.
Proof.
  intros Hn Hi; unfold midpoint_bounds; rewrite uniform_length.
  set (g := fun i0 : nat => _).
  rewrite (nth_indep _ (0, 0) (g 0%nat)) by (rewrite length_map, length_seq; lia).
  rewrite map_nth, seq_nth by lia; cbn [Nat.add]; unfold g, width; cbn [fst snd].
  destruct i as [|i].
  - destruct (Nat.eqb 1 n) eqn:E; [apply Nat.eqb_eq in E; lia |].
    rewrite !nth_uniform by lia; cbn [INR]; field.
  - destruct (Nat.eqb (S (S i)) n) eqn:E.
    + apply Nat.eqb_eq in E.
      replace (S i - 1)%nat with i by lia.
      rewrite !nth_uniform by lia; rewrite !S_INR; field.
    + apply Nat.eqb_neq in E.
      rewrite !nth_uniform by lia; rewrite !S_INR; field.
Qed.

Lemma coord_by_axis_Y_latlon (p0 p1 : list R) (b0 b1 : option (list (R * R)))
    (aux : list Coord) (f : list nat -> R) :
  Forall (fun k => cname k <> Latitude) aux ->
  coord_by_axis (mkCube [mkCoord Latitude p0 b0; mkCoord Longitude p1 b1] aux f) AxisY
  = Ok (mkCoord Latitude p0 b0).
Proof.
  intros Haux; unfold coord_by_axis; cbn [dim_coords aux_coords app filter guess_coord_axis cname].
  replace (filter _ aux) with (@nil Coord); [reflexivity |].
  induction Haux as [|k l Hk _ IH]; [reflexivity |]; cbn.
  destruct (cname k); [exact IH | congruence | exact IH].
Qed.

(** The areas of an evenly spaced (latitude, longitude) cube. *)
Lemma latlon_area_cells (phi0 dphi lam0 dlam r_planet : R) (nlat nlon : nat)
    (aux : list Coord) (f : list nat -> R) :
  (2 <= nlat)%nat -> (2 <= nlon)%nat -> Forall (fun k => cname k <> Latitude) aux ->
  within90 (midpoint_bounds (uniform phi0 dphi nlat)) ->
  exists c,
    vertical_cross_section_area
      (mkCube [mkCoord Latitude (uniform phi0 dphi nlat) None;
               mkCoord Longitude (uniform lam0 dlam nlon) None] aux f) r_planet = Ok c /\
    forall i j, (i < nlat)%nat -> (j < nlon)%nat ->
      cdata c [i; j] = r_planet * (PI / 180) * dlam * dphi * cos (deg2rad phi0).
Proof.
  intros Hlat Hlon Haux Hin.
  unfold vertical_cross_section_area; cbn [dim_coords cname guess_coord_axis].
  rewrite coord_by_axis_Y_latlon by exact Haux.
  cbn [mapR ensure_bounds bounds points cname aux_coords].
  rewrite !guess_bounds_midpoint_unclipped
    by (rewrite ?uniform_length; first [assumption | intros _; assumption
                                         | intros Hd; discriminate Hd]).
  eexists; split; [reflexivity |].
  intros i j Hi Hj; cbn [cdata nth bounds points].
  rewrite !width_midpoint_uniform by assumption.
  destruct nlat as [|nlat]; [lia |]; cbn [uniform hd].
  ring.
Qed.

(** C2 (amended): on a (latitude, longitude) cube whose coordinates carry
    no bounds, with [nlat >= 2] latitudes evenly spaced by [dphi] from [phi0]
    whose midpoint cells lie within [[-90, 90]] (so that iris's clip of
    latitude bounds changes nothing), [nlon >= 2] longitudes evenly spaced
    by [dlam], and no other latitude coordinate, every cell's area is
    [r_planet * (pi/180) * dlam * dphi * cos(phi0)]: the latitude extent
    is not converted to metres (one factor [r_planet * pi/180], not its
    square), and the cosine is taken at the first latitude [phi0], not at
    the cell's latitude. *)
Theorem vcs_area_latlon (phi0 dphi lam0 dlam r_planet : R) (nlat nlon : nat)
    (aux : list Coord) (f : list nat -> R) :
  (2 <= nlat)%nat -> (2 <= nlon)%nat -> Forall (fun k => cname k <> Latitude) aux ->
  within90 (midpoint_bounds (uniform phi0 dphi nlat)) ->
  exists c,
    vertical_cross_section_area
      (mkCube [mkCoord Latitude (uniform phi0 dphi nlat) None;
               mkCoord Longitude (uniform lam0 dlam nlon) None] aux f) r_planet = Ok c /\
    forall i j, (i < nlat)%nat -> (j < nlon)%nat ->
      cdata c [i; j] = r_planet * (PI / 180) * dlam * dphi * cos (deg2rad phi0).
Proof. exact (latlon_area_cells phi0 dphi lam0 dlam r_planet nlat nlon aux f). Qed.

Lemma vcs_area_latlon_witness :
  (2 <= 2)%nat /\ (2 <= 3)%nat /\ Forall (fun k => cname k <> Latitude) [mkCoord Height [5] None] /\
  within90 (midpoint_bounds (uniform 0 10 2)) /\
  exists c,
    vertical_cross_section_area
      (mkCube [mkCoord Latitude (uniform 0 10 2) None;
               mkCoord Longitude (uniform 0 90 3) None] [mkCoord Height [5] None] (fun _ => 0)) 1
    = Ok c /\
    forall i j, (i < 2)%nat -> (j < 3)%nat ->
      cdata c [i; j] = 1 * (PI / 180) * 90 * 10 * cos (deg2rad 0).
Proof.
  assert (Hin : within90 (midpoint_bounds (uniform 0 10 2)))
    by (solve_within90).
  split; [lia | split; [lia | split; [repeat constructor; discriminate | split; [exact Hin |]]]].
  apply vcs_area_latlon; [lia | lia | repeat constructor; discriminate | exact Hin].
Defined.

(** C2 (counterexample): latitudes [0; 10], longitudes [0; 10] and radius
    180: the first cell's area is [100 * pi], while the claimed
    [R^2 * (pi/180)^2 * dlam * dphi * cos(phi)] is [100 * pi^2], which is
    [pi] times as large: far outside any floating-point tolerance. *)
Lemma vcs_area_latlon_not_squared :
  let claimed := 180 * 180 * (PI / 180) * (PI / 180) * 10 * 10 * cos (deg2rad 0) in
  exists c,
    vertical_cross_section_area
      (mkCube [mkCoord Latitude [0; 10] None; mkCoord Longitude [0; 10] None] [] (fun _ => 0)) 180
    = Ok c /\ cdata c [0; 0]%nat = 100 * PI /\ claimed = PI * cdata c [0; 0]%nat /\
    Rabs (cdata c [0; 0]%nat - claimed) > claimed / 2.
Proof.
  intros claimed.
  destruct (latlon_area_cells 0 10 0 10 180 2 2 [] (fun _ => 0)) as [c [Hc Hval]];
    [lia | lia | constructor
    | solve_within90 |].
  exists c; cbn [uniform] in Hc; replace (0 + 10) with 10 in Hc by ring.
  split; [exact Hc |].
  assert (Hcos : cos (deg2rad 0) = 1) by (unfold deg2rad; rewrite Rmult_0_l; apply cos_0).
  rewrite Hval by lia; rewrite Hcos.
  assert (Hpi := PI2_3_2).
  unfold claimed; rewrite Hcos.
  split; [field | split; [field |]].
  rewrite Rabs_left; [nra | nra].
Qed.

(** C3 (counterexample): a (height, latitude) cross-section with a single
    height and no bounds: iris refuses to guess bounds for a length-1
    coordinate, so the call fails with a [ValueError] instead of giving
    zero areas. *)
Lemma vcs_area_single_point_fails :
  vertical_cross_section_area
    (mkCube [mkCoord Height [0] None; mkCoord Latitude [0; 10] None] [] (fun _ => 0)) 1
  = Fail ValueError.
Proof. reflexivity. Qed.

(** The only failure of an iris coordinate lookup is
    [CoordinateNotFoundError]. *)
Lemma coord_by_axis_fail (c : Cube) (a : Axis) (e : exc) :
  coord_by_axis c a = Fail e -> e = CoordNotFound.
Proof. unfold coord_by_axis; destruct (filter _ _) as [|k [|k' l]]; congruence. Qed.

(** The only failure of bounds guessing is a [ValueError]. *)
Lemma ensure_bounds_fail (k : Coord) (e : exc) :
  ensure_bounds k = Fail e -> e = ValueError.
Proof.
  destruct k as [n p [b|]]; cbn; [discriminate |].
  destruct p as [|x [|y t]]; cbn; congruence.
Qed.

(** A coordinate with bounds, or with at least two points, gets bounds. *)
Lemma ensure_bounds_ok (k : Coord) :
  bounds k <> None \/ (2 <= List.length (points k))%nat ->
  exists b, ensure_bounds k = Ok (mkCoord (cname k) (points k) (Some b)).
Proof.
  destruct k as [n p [b|]]; cbn [bounds points cname ensure_bounds]; intros H.
  - exists b; reflexivity.
  - destruct H as [H | H]; [congruence |].
    rewrite guess_bounds_midpoint by exact H; eexists; reflexivity.
Qed.

(** The lookup of a coordinate by axis does not depend on the bounds of
    the cube's coordinates: the same coordinate is found, with its points. *)
Lemma coord_by_axis_rebound0 (n : Dim) (p : list R) (b b' : option (list (R * R)))
    (k1 : Coord) (aux : list Coord) (f : list nat -> R) (a : Axis) :
  match coord_by_axis (mkCube [mkCoord n p b; k1] aux f) a,
        coord_by_axis (mkCube [mkCoord n p b'; k1] aux f) a with
  | Ok y, Ok y' => points y = points y'
  | Fail e, Fail e' => e = e'
  | _, _ => False
  end.
Proof.
  unfold coord_by_axis; cbn [dim_coords aux_coords app filter cname].
  destruct (guess_coord_axis n), (guess_coord_axis (cname k1)), a; cbn; try reflexivity;
    destruct (filter _ aux) as [|c [|c' l]]; reflexivity.
Qed.

Lemma coord_by_axis_rebound1 (k0 : Coord) (n : Dim) (p : list R)
    (b b' : option (list (R * R))) (aux : list Coord) (f : list nat -> R) (a : Axis) :
  match coord_by_axis (mkCube [k0; mkCoord n p b] aux f) a,
        coord_by_axis (mkCube [k0; mkCoord n p b'] aux f) a with
  | Ok y, Ok y' => points y = points y'
  | Fail e, Fail e' => e = e'
  | _, _ => False
  end.
Proof.
  unfold coord_by_axis; cbn [dim_coords aux_coords app filter cname].
  destruct (guess_coord_axis n), (guess_coord_axis (cname k0)), a; cbn; try reflexivity;
    destruct (filter _ aux) as [|c [|c' l]]; reflexivity.
Qed.

(** C3 (amended): on a 2-D cube, a dimension coordinate of one point
    without bounds makes [vertical_cross_section_area] fail, with a
    [ValueError] from bounds guessing (or the
    [CoordinateNotFoundError] of the "Y" lookup, which comes first).
    With bounds [[b]] supplied on the one-point coordinate the call
    returns, provided the other coordinate has bounds or at least two
    points and the "Y" lookup (needed when the second coordinate is an "X"
    one) succeeds; the areas along the one-point coordinate are then
    [width b] times those obtained with the unit bounds [[(0, 1)]], so
    zero-width bounds [(x, x)] give zero areas and wider bounds scale
    them. *)
Theorem vcs_area_single_point (k0 k1 : Coord) (aux : list Coord) (f : list nat -> R)
    (r_planet : R) :
  (((exists x, points k0 = [x]) /\ bounds k0 = None) \/
   ((exists x, points k1 = [x]) /\ bounds k1 = None) ->
   vertical_cross_section_area (mkCube [k0; k1] aux f) r_planet = Fail ValueError \/
   vertical_cross_section_area (mkCube [k0; k1] aux f) r_planet = Fail CoordNotFound) /\
  (forall x b, points k0 = [x] -> bounds k0 = Some [b] ->
   (guess_coord_axis (cname k1) = AxisX ->
    exists y, coord_by_axis (mkCube [k0; k1] aux f) AxisY = Ok y) ->
   bounds k1 <> None \/ (2 <= List.length (points k1))%nat ->
   exists c c1,
     vertical_cross_section_area (mkCube [k0; k1] aux f) r_planet = Ok c /\
     vertical_cross_section_area
       (mkCube [mkCoord (cname k0) [x] (Some [(0, 1)]); k1] aux f) r_planet = Ok c1 /\
     forall j, cdata c [0%nat; j] = width b * cdata c1 [0%nat; j]) /\
  (forall x b, points k1 = [x] -> bounds k1 = Some [b] ->
   (guess_coord_axis (cname k1) = AxisX ->
    exists y, coord_by_axis (mkCube [k0; k1] aux f) AxisY = Ok y) ->
   bounds k0 <> None \/ (2 <= List.length (points k0))%nat ->
   exists c c1,
     vertical_cross_section_area (mkCube [k0; k1] aux f) r_planet = Ok c /\
     vertical_cross_section_area
       (mkCube [k0; mkCoord (cname k1) [x] (Some [(0, 1)])] aux f) r_planet = Ok c1 /\
     forall i, cdata c [i; 0%nat] = width b * cdata c1 [i; 0%nat]).
Proof.
  split; [| split].
  - intros [[[x Hx] Hb] | [[x Hx] Hb]];
      destruct k0 as [n0 p0 b0], k1 as [n1 p1 b1]; cbn [points bounds] in *; subst;
      unfold vertical_cross_section_area; cbn [dim_coords aux_coords cname];
      (destruct (guess_coord_axis n1);
       [destruct (coord_by_axis _ AxisY) as [y|e] eqn:Ey;
        [| apply coord_by_axis_fail in Ey; subst; right; reflexivity] | |]);
      cbn [mapR];
      try (left; reflexivity);
      destruct (ensure_bounds (mkCoord n0 p0 b0)) as [k|e] eqn:Ek;
      try (apply ensure_bounds_fail in Ek; subst; left; reflexivity);
      left; reflexivity.
  - intros x b Hx Hb HY Hk1.
    destruct k0 as [n0 p0 b0]; cbn [points bounds cname] in *; subst.
    destruct (ensure_bounds_ok k1 Hk1) as [b1 Hk1'].
    unfold vertical_cross_section_area; cbn [dim_coords aux_coords mapR ensure_bounds bounds].
    rewrite Hk1'.
    destruct (guess_coord_axis (cname k1)) eqn:Ea.
    + destruct (HY eq_refl) as [y Hy]; rewrite Hy.
      pose proof (coord_by_axis_rebound0 n0 [x] (Some [b]) (Some [(0, 1)]) k1 aux f AxisY) as Hr.
      rewrite Hy in Hr.
      destruct (coord_by_axis (mkCube [mkCoord n0 [x] (Some [(0, 1)]); k1] aux f) AxisY)
        as [y'|e]; [| contradiction].
      do 2 eexists; split; [reflexivity | split; [reflexivity |]].
      intros j; cbn; rewrite Hr; unfold width; cbn; ring.
    + do 2 eexists; split; [reflexivity | split; [reflexivity |]].
      intros j; cbn; unfold width; cbn; ring.
    + do 2 eexists; split; [reflexivity | split; [reflexivity |]].
      intros j; cbn; unfold width; cbn; ring.
  - intros x b Hx Hb HY Hk0.
    destruct k1 as [n1 p1 b1]; cbn [points bounds cname] in *; subst.
    destruct (ensure_bounds_ok k0 Hk0) as [b0 Hk0'].
    unfold vertical_cross_section_area; cbn [dim_coords aux_coords mapR ensure_bounds bounds cname].
    rewrite Hk0'.
    destruct (guess_coord_axis n1) eqn:Ea.
    + destruct (HY eq_refl) as [y Hy]; rewrite Hy.
      pose proof (coord_by_axis_rebound1 k0 n1 [x] (Some [b]) (Some [(0, 1)]) aux f AxisY) as Hr.
      rewrite Hy in Hr.
      destruct (coord_by_axis (mkCube [k0; mkCoord n1 [x] (Some [(0, 1)])] aux f) AxisY)
        as [y'|e]; [| contradiction].
      do 2 eexists; split; [reflexivity | split; [reflexivity |]].
      intros i; cbn; rewrite Hr; unfold width; cbn; ring.
    + do 2 eexists; split; [reflexivity | split; [reflexivity |]].
      intros i; cbn; unfold width; cbn; ring.
    + do 2 eexists; split; [reflexivity | split; [reflexivity |]].
      intros i; cbn; unfold width; cbn; ring.
Qed.

Lemma vcs_area_single_point_witness :
  (vertical_cross_section_area
     (mkCube [mkCoord Height [0] None; mkCoord Latitude [0; 10] None] [] (fun _ => 0)) 1
   = Fail ValueError \/
   vertical_cross_section_area
     (mkCube [mkCoord Height [0] None; mkCoord Latitude [0; 10] None] [] (fun _ => 0)) 1
   = Fail CoordNotFound) /\
  (exists c c1,
     vertical_cross_section_area
       (mkCube [mkCoord Height [0] (Some [(-1, 1)]); mkCoord Latitude [0; 10] None]
          [] (fun _ => 0)) 1 = Ok c /\
     vertical_cross_section_area
       (mkCube [mkCoord Height [0] (Some [(0, 1)]); mkCoord Latitude [0; 10] None]
          [] (fun _ => 0)) 1 = Ok c1 /\
     forall j, cdata c [0%nat; j] = width (-1, 1) * cdata c1 [0%nat; j]).
Proof.
  split.
  - apply (vcs_area_single_point (mkCoord Height [0] None) (mkCoord Latitude [0; 10] None)
             [] (fun _ => 0) 1).
    left; split; [exists 0; reflexivity | reflexivity].
  - apply (proj1 (proj2 (vcs_area_single_point (mkCoord Height [0] (Some [(-1, 1)]))
             (mkCoord Latitude [0; 10] None) [] (fun _ => 0) 1)) 0 (-1, 1));
      [reflexivity | reflexivity | intros Ha; discriminate Ha | right; cbn; lia].
Defined.

(** ** One boundary of [net_horizontal_flux_to_region] *)

Lemma ll_other_cases (s o : string) :
  ll_other s = Some o ->
  (s = "longitude"%string /\ o = "latitude"%string) \/
  (s = "latitude"%string /\ o = "longitude"%string).
Proof.
  unfold ll_other.
  destruct (String.eqb_spec s "longitude") as [->|_]; [intros H; injection H as <-; auto |].
  destruct (String.eqb_spec s "latitude") as [->|_]; [intros H; injection H as <-; auto |].
  discriminate.
Qed.

(** Unfolding one loop iteration up to its constraint, for a key of the
    form [longitude?] or [latitude?]. *)
Lemma boundary_constraint_unfold (scalar_cube : Cube3) (box : list (string * R))
    (vc : option (R -> bool)) (key : string) (val : R) (o : string) :
  ll_other (drop_last key) = Some o ->
  exists d od,
    dim_of_name (drop_last key) = Some d /\ dim_of_name o = Some od /\
    d <> od /\ d <> Height /\ od <> Height /\
    boundary_constraint scalar_cube box vc (key, val) =
    match nearest_coord_value scalar_cube d val with
    | Fail e => (Fail e, [])
    | Ok n =>
        (match lookup (o ++ "0") box, lookup (o ++ "1") box with
         | Some mn, Some mx => Ok (d, boundary_cnstr d od n mn mx vc)
         | _, _ => Fail KeyError
         end, snap_warnings (drop_last key) n val)
    end.
Proof.
  intros Ho; unfold boundary_constraint.
  destruct (ll_other_cases _ _ Ho) as [[Hs ->] | [Hs ->]];
    rewrite Ho, Hs; cbn -[nearest_coord_value lookup Rltb Rabs];
    [exists Longitude, Latitude | exists Latitude, Longitude];
    refine (conj eq_refl (conj eq_refl (conj _ (conj _ (conj _ _))))); try discriminate;
    destruct (nearest_coord_value scalar_cube _ val) as [n|e]; cbn -[lookup Rltb Rabs];
    try reflexivity;
    unfold snap_warnings; destruct (Rltb 10 (Rabs (n - val)));
    cbn -[lookup]; destruct (lookup _ box); cbn -[lookup];
    try destruct (lookup _ box); cbn; try reflexivity;
    destruct vc; reflexivity.
Qed.

Lemma boundary_cnstr_other (d od : Dim) (n mn mx : R) (vc : option (R -> bool)) :
  d <> od -> od <> Height ->
  constr_of (boundary_cnstr d od n mn mx vc) od = Some (other_pred mn mx).
Proof. destruct d, od, vc; cbn; congruence. Qed.

Lemma boundary_cnstr_this (d od : Dim) (n mn mx : R) (vc : option (R -> bool)) :
  d <> od -> d <> Height ->
  constr_of (boundary_cnstr d od n mn mx vc) d = Some (fun x => Reqb x n).
Proof. destruct d, od, vc; cbn; congruence. Qed.

Lemma other_pred_spec (mn mx x : R) :
  (mx < mn -> (other_pred mn mx x = true <-> mn <= x \/ x <= mx)) /\
  (mn <= mx -> (other_pred mn mx x = true <-> mn <= x <= mx)).
Proof.
  unfold other_pred; split; intros H.
  - destruct (Rleb mn mx) eqn:E; [apply Rleb_true_iff in E; lra |].
    rewrite orb_true_iff, !Rleb_true_iff; tauto.
  - replace (Rleb mn mx) with true by (symmetry; apply Rleb_true_iff; exact H).
    rewrite andb_true_iff, !Rleb_true_iff; tauto.
Qed.

Lemma select_idx_spec (p : R -> bool) (pts : list R) (i : nat) :
  In i (select_idx p pts) <-> (i < List.length pts)%nat /\ p (nth i pts 0) = true.
Proof. unfold select_idx; rewrite filter_In, in_seq; split; intros [H1 H2]; split; auto; lia. Qed.

Lemma boundary_constraint_ok (scalar_cube : Cube3) (box : list (string * R))
    (vc : option (R -> bool)) (key : string) (val : R) (d : Dim) (c : Constr)
    (ws : list warning) :
  boundary_constraint scalar_cube box vc (key, val) = (Ok (d, c), ws) ->
  exists o od n mn mx,
    ll_other (drop_last key) = Some o /\ dim_of_name (drop_last key) = Some d /\
    dim_of_name o = Some od /\ d <> od /\ d <> Height /\ od <> Height /\
    nearest_coord_value scalar_cube d val = Ok n /\
    lookup (o ++ "0") box = Some mn /\ lookup (o ++ "1") box = Some mx /\
    c = boundary_cnstr d od n mn mx vc /\ ws = snap_warnings (drop_last key) n val.
Proof.
  intros H.
  destruct (ll_other (drop_last key)) as [o|] eqn:Ho.
  2: { unfold boundary_constraint in H; rewrite Ho in H; discriminate. }
  destruct (boundary_constraint_unfold scalar_cube box vc key val o Ho)
    as (d' & od & Hd & Hod & Hne & Hd' & Hod' & Heq).
  rewrite Heq in H.
  destruct (nearest_coord_value scalar_cube d' val) as [n|e] eqn:Hn; [| discriminate].
  destruct (lookup _ box) as [mn|] eqn:Hmn; [| discriminate].
  destruct (lookup (o ++ "1") box) as [mx|] eqn:Hmx; [| discriminate].
  injection H as <- <- <-.
  exists o, od, n, mn, mx; repeat split; auto.
Qed.

(** C5 (amended): on the scalar cube, whose dimension coordinates carry no
    bounds, the free-axis selection of every boundary keeps exactly the points
    [x] with [x >= other_min] or [x <= other_max] when
    [other_max < other_min] (the wrapped region), and exactly those with
    [other_min <= x <= other_max] otherwise. *)
Theorem boundary_selection_wraparound (scalar_cube : Cube3) (box : list (string * R))
    (vc : option (R -> bool)) (key : string) (val : R) (d : Dim) (c : Constr)
    (ws : list warning) :
  boundary_constraint scalar_cube box vc (key, val) = (Ok (d, c), ws) ->
  exists o od other_min other_max p,
    ll_other (drop_last key) = Some o /\ dim_of_name o = Some od /\
    lookup (o ++ "0") box = Some other_min /\ lookup (o ++ "1") box = Some other_max /\
    constr_of c od = Some p /\
    (other_max < other_min -> forall pts i,
       In i (select_idx p pts) <->
       (i < List.length pts)%nat /\ (other_min <= nth i pts 0 \/ nth i pts 0 <= other_max)) /\
    (other_min <= other_max -> forall pts i,
       In i (select_idx p pts) <->
       (i < List.length pts)%nat /\ other_min <= nth i pts 0 <= other_max).
Proof.
  intros H.
  destruct (boundary_constraint_ok _ _ _ _ _ _ _ _ H)
    as (o & od & n & mn & mx & Ho & Hd & Hod & Hne & Hd' & Hod' & Hn & Hmn & Hmx & -> & _).
  exists o, od, mn, mx, (other_pred mn mx).
  split; [exact Ho | split; [exact Hod | split; [exact Hmn | split; [exact Hmx | split]]]].
  - apply boundary_cnstr_other; assumption.
  - split; intros Hlt pts i; rewrite select_idx_spec;
      [rewrite (proj1 (other_pred_spec mn mx _) Hlt) | rewrite (proj2 (other_pred_spec mn mx _) Hlt)];
      tauto.
Qed.

(** C5 (counterexample): on a longitude coordinate with bounds, iris
    compares each cell with the range by its bounds.  Points
    [330, 340, 350] with bounds [p - 5, p + 5] and the wrapped range
    [other_min = 345], [other_max = 10] keep the cell of 340 (its upper
    bound reaches 345) besides that of 350, although 340 is neither
    [>= 345] nor [<= 10]; without bounds only 350 is kept. *)
Lemma boundary_selection_bounded_cells :
  select_cells (other_pred_cell 345 10)
    (coord_cells [330; 340; 350] (Some [(325, 335); (335, 345); (345, 355)]))
  = [1%nat; 2%nat] /\
  select_cells (other_pred_cell 345 10) (coord_cells [330; 340; 350] None) = [2%nat] /\
  select_idx (other_pred 345 10) [330; 340; 350] = [2%nat] /\
  ~ (345 <= 340 \/ 340 <= 10).
Proof.
  assert (E : Rleb 345 10 = false) by (unfold Rleb; destruct (Rle_dec 345 10); [lra | reflexivity]).
  split; [| split; [| split]].
  - cbn [select_cells coord_cells seq List.length filter nth map combine fst snd].
    unfold other_pred_cell, cell_le, cell_ge; rewrite E; cbn [cbound cpoint fst snd].
    rewrite ?Rmin_left, ?Rmax_right by lra; reval; reflexivity.
  - unfold select_cells, coord_cells, other_pred_cell, cell_le, cell_ge; reval; reflexivity.
  - unfold select_idx; reval; reflexivity.
  - lra.
Qed.

(** ** The monad, the loop and the extraction *)

Lemma bind_ok_inv {A B} (m : M A) (k : A -> M B) (b : B) (ws : list warning) :
  bind m k = (Ok b, ws) ->
  exists a w1 w2, m = (Ok a, w1) /\ k a = (Ok b, w2) /\ ws = w1 ++ w2.
Proof.
  destruct m as [[a|e] w1]; cbn; [| discriminate].
  destruct (k a) as [r w2] eqn:Hk; intros H; injection H as Hr Hw; subst.
  exists a, w1, w2; auto.
Qed.

Lemma fst_bind_fail {A B} (m : M A) (k : A -> M B) (e : exc) :
  fst m = Fail e -> fst (bind m k) = Fail e.
Proof. destruct m as [[a|e'] w]; cbn; congruence. Qed.

Lemma snd_bind {A B} (m : M A) (k : A -> M B) :
  snd (bind m k) = snd m ++ match fst m with Ok a => snd (k a) | Fail _ => [] end.
Proof.
  destruct m as [[a|e] w]; cbn; [| rewrite app_nil_r; reflexivity].
  destruct (k a); reflexivity.
Qed.

Lemma mapM_ok {A B} (f : A -> M B) (l : list A) (ys : list B) (ws : list warning) :
  mapM f l = (Ok ys, ws) -> Forall2 (fun x y => fst (f x) = Ok y) l ys.
Proof.
  revert ys ws; induction l as [|x l IH]; intros ys ws H; cbn in H.
  - injection H as <- _; constructor.
  - apply bind_ok_inv in H as (y & w1 & w2 & Hy & H & _).
    apply bind_ok_inv in H as (ys' & w3 & w4 & Hys & H & _).
    injection H as <- _.
    constructor; [rewrite Hy; reflexivity | eapply IH; exact Hys].
Qed.

(** No warning is emitted after the constraint is built. *)
Lemma flux_of_constraint_no_warning (scalar_cube : Cube3) (u v : nat -> nat -> nat -> R)
    (r_planet : R) (d : Dim) (c : Constr) :
  snd (flux_of_constraint scalar_cube u v r_planet d c) = [].
Proof.
  unfold flux_of_constraint; rewrite snd_bind; cbn.
  destruct (area_of_extracted _ _); [| reflexivity].
  destruct (extract _ c), (extract scalar_cube c); reflexivity.
Qed.

(** The data of an extraction are data of the cube extracted from. *)
Lemma extract_data (c : Cube3) (k : Constr) (e : Cube) :
  extract c k = Some e -> forall ix, exists a b d, cdata e ix = values c a b d.
Proof.
  unfold extract.
  destruct (select (z_points c) (cz k)) as [sz|]; [| discriminate].
  destruct (select (lat_points c) (clat k)) as [sl|]; [| discriminate].
  destruct (select (lon_points c) (clon k)) as [so|]; [| discriminate].
  destruct (sel_coords Height _ sz), (sel_coords Latitude _ sl), (sel_coords Longitude _ so).
  intros H; injection H as <-; intros ix; cbn.
  destruct (pick sz ix) as [a ix1], (pick sl ix1) as [b ix2], (pick so ix2) as [d ?].
  exists a, b, d; reflexivity.
Qed.

Lemma fold_right_Rplus_zero (l : list R) :
  (forall x, In x l -> x = 0) -> fold_right Rplus 0 l = 0.
Proof.
  induction l as [|x l IH]; intros H; cbn; [reflexivity |].
  rewrite (H x) by (left; reflexivity); rewrite IH by (intros y Hy; apply H; right; exact Hy).
  ring.
Qed.

(** With a zero wind component every boundary flux that is computed is 0. *)
Lemma flux_of_constraint_zero_wind (scalar_cube : Cube3) (r_planet : R) (d : Dim)
    (c : Constr) (f : R) :
  fst (flux_of_constraint scalar_cube (fun _ _ _ => 0) (fun _ _ _ => 0) r_planet d c) = Ok f ->
  f = 0.
Proof.
  unfold flux_of_constraint; destruct (area_of_extracted _ _) as [a|e]; cbn; [| discriminate].
  destruct (extract (with_values scalar_cube _) c) as [w|] eqn:Hw; [| discriminate].
  destruct (extract scalar_cube c) as [s|]; [| discriminate].
  intros H; injection H as <-.
  unfold collapsed_sum; apply fold_right_Rplus_zero.
  intros x Hx; apply in_map_iff in Hx as (ix & <- & _).
  destruct (extract_data _ _ _ Hw ix) as (a' & b' & d' & Hd).
  cbn; rewrite Hd; destruct d; cbn; ring.
Qed.

Lemma fst_bind_ok {A B} (m : M A) (k : A -> M B) (b : B) :
  fst (bind m k) = Ok b -> exists a, fst m = Ok a /\ fst (k a) = Ok b.
Proof.
  destruct m as [[a|e] w]; cbn; [| discriminate].
  destruct (k a) as [r w2] eqn:Hk; cbn; intros ->; exists a; rewrite Hk; auto.
Qed.

Lemma Forall2_in_left {A B} (P : A -> B -> Prop) (l : list A) (l' : list B) (x : A) :
  Forall2 P l l' -> In x l -> exists y, P x y.
Proof.
  induction 1 as [|a b l l' Hab _ IH]; [intros [] | intros [<-|Hx]; eauto].
Qed.

Lemma Forall2_in_right {A B} (P : A -> B -> Prop) (l : list A) (l' : list B) (y : B) :
  Forall2 P l l' -> In y l' -> exists x, P x y.
Proof.
  induction 1 as [|a b l l' Hab _ IH]; [intros [] | intros [<-|Hy]; eauto].
Qed.

Lemma Forall2_4 {A B} (P : A -> B -> Prop) (a b c d : A) (fs : list B) :
  Forall2 P [a; b; c; d] fs ->
  exists y0 y1 y2 y3, fs = [y0; y1; y2; y3] /\ P a y0 /\ P b y1 /\ P c y2 /\ P d y3.
Proof.
  intros H.
  inversion H as [|? y0 ? l0 H0 H1]; subst.
  inversion H1 as [|? y1 ? l1 H2 H3]; subst.
  inversion H3 as [|? y2 ? l2 H4 H5]; subst.
  inversion H5 as [|? y3 ? l3 H6 H7]; subst.
  inversion H7; subst.
  exists y0, y1, y2, y3; auto.
Qed.

(** A successful call is the combination of four successful loop
    iterations. *)
Lemma net_ok_inv (scalar_cube : Cube3) (box : list (string * R)) (u v : nat -> nat -> nat -> R)
    (r_planet : R) (vc : option (R -> bool)) (res : R) (ws : list warning) :
  net_horizontal_flux_to_region scalar_cube box u v r_planet vc = (Ok res, ws) ->
  exists fs f0 f1 f2 f3,
    Forall2 (fun e f => fst (boundary_flux scalar_cube box u v r_planet vc e) = Ok f) box fs /\
    nth_error fs 0 = Some f0 /\ nth_error fs 1 = Some f1 /\
    nth_error fs 2 = Some f2 /\ nth_error fs 3 = Some f3 /\
    res = (f0 - f1) + (f2 - f3).
Proof.
  unfold net_horizontal_flux_to_region; intros H.
  apply bind_ok_inv in H as (fs & w0 & w0' & Hfs & H & _).
  apply bind_ok_inv in H as (f0 & w1 & w1' & H0 & H & _).
  apply bind_ok_inv in H as (f1 & w2 & w2' & H1 & H & _).
  apply bind_ok_inv in H as (f2 & w3 & w3' & H2 & H & _).
  apply bind_ok_inv in H as (f3 & w4 & w4' & H3 & H & _).
  injection H as <- _.
  exists fs, f0, f1, f2, f3; split; [exact (mapM_ok _ _ _ _ Hfs) |].
  destruct (nth_error fs 0); [| discriminate]; injection H0 as <-.
  destruct (nth_error fs 1); [| discriminate]; injection H1 as <-.
  destruct (nth_error fs 2); [| discriminate]; injection H2 as <-.
  destruct (nth_error fs 3); [| discriminate]; injection H3 as <-.
  auto.
Qed.

Lemma boundary_flux_ok_inv (scalar_cube : Cube3) (box : list (string * R))
    (u v : nat -> nat -> nat -> R) (r_planet : R) (vc : option (R -> bool))
    (e : string * R) (f : R) :
  fst (boundary_flux scalar_cube box u v r_planet vc e) = Ok f ->
  exists d c ws, boundary_constraint scalar_cube box vc e = (Ok (d, c), ws) /\
                 fst (flux_of_constraint scalar_cube u v r_planet d c) = Ok f.
Proof.
  unfold boundary_flux; intros H.
  apply fst_bind_ok in H as ([d c] & H1 & H2).
  destruct (boundary_constraint scalar_cube box vc e) as [r0 ws]; cbn in H1; subst.
  exists d, c, ws; split; [reflexivity | exact H2].
Qed.

(** Only the constraint step of an iteration warns. *)
Lemma boundary_flux_warnings (scalar_cube : Cube3) (box : list (string * R))
    (u v : nat -> nat -> nat -> R) (r_planet : R) (vc : option (R -> bool))
    (e : string * R) :
  snd (boundary_flux scalar_cube box u v r_planet vc e) =
  snd (boundary_constraint scalar_cube box vc e).
Proof.
  unfold boundary_flux; rewrite snd_bind.
  destruct (fst (boundary_constraint scalar_cube box vc e));
    [rewrite flux_of_constraint_no_warning |]; apply app_nil_r.
Qed.

(** An iteration reads its key only through [ll_coord[:-1]]. *)
Lemma boundary_flux_key (scalar_cube : Cube3) (box : list (string * R))
    (u v : nat -> nat -> nat -> R) (r_planet : R) (vc : option (R -> bool))
    (k1 k2 : string) (val : R) :
  drop_last k1 = drop_last k2 ->
  boundary_flux scalar_cube box u v r_planet vc (k1, val) =
  boundary_flux scalar_cube box u v r_planet vc (k2, val).
Proof. intros H; unfold boundary_flux, boundary_constraint; rewrite H; reflexivity. Qed.

Lemma flux_of_constraint_ok_area (scalar_cube : Cube3) (u v : nat -> nat -> nat -> R)
    (r_planet : R) (d : Dim) (c : Constr) (f : R) :
  fst (flux_of_constraint scalar_cube u v r_planet d c) = Ok f ->
  exists a, area_of_extracted (extract scalar_cube c) r_planet = Ok a.
Proof.
  unfold flux_of_constraint; destruct (area_of_extracted _ _) as [a|e]; cbn; [eauto | discriminate].
Qed.

(** The argmin fold of [nearest_coord_value]. *)
Lemma nearest_fold_spec (val : R) (ps : list R) : forall p,
  (fold_left (fun best q => if Rltb (Rabs (q - val)) (Rabs (best - val)) then q else best) ps p = p
   \/ In (fold_left (fun best q => if Rltb (Rabs (q - val)) (Rabs (best - val))
                                  then q else best) ps p) ps) /\
  Rabs (fold_left (fun best q => if Rltb (Rabs (q - val)) (Rabs (best - val))
                                 then q else best) ps p - val) <= Rabs (p - val) /\
  (forall q, In q ps ->
   Rabs (fold_left (fun best q => if Rltb (Rabs (q - val)) (Rabs (best - val))
                                  then q else best) ps p - val) <= Rabs (q - val)).
Proof.
  induction ps as [|q ps IH]; intros p; cbn.
  - split; [left; reflexivity | split; [lra | intros q []]].
  - destruct (Rltb (Rabs (q - val)) (Rabs (p - val))) eqn:E.
    + apply Rltb_true_iff in E.
      destruct (IH q) as (H1 & H2 & H3).
      split; [right; destruct H1 as [->|H1]; [left; reflexivity | right; exact H1] |].
      split; [lra | intros q' [<-|Hq']; [lra | apply H3; exact Hq']].
    + assert (E' : ~ Rabs (q - val) < Rabs (p - val))
        by (intros Hc; apply Rltb_true_iff in Hc; congruence).
      destruct (IH p) as (H1 & H2 & H3).
      split; [destruct H1 as [->|H1]; [left; reflexivity | right; right; exact H1] |].
      split; [lra | intros q' [<-|Hq']; [lra | apply H3; exact Hq']].
Qed.

Lemma nearest_coord_value_spec (c : Cube3) (d : Dim) (val : R) :
  coord_points3 c d <> [] ->
  exists n, nearest_coord_value c d val = Ok n /\ In n (coord_points3 c d) /\
            forall q, In q (coord_points3 c d) -> Rabs (n - val) <= Rabs (q - val).
Proof.
  unfold nearest_coord_value; destruct (coord_points3 c d) as [|p ps]; [congruence | intros _].
  destruct (nearest_fold_spec val ps p) as (H1 & H2 & H3).
  eexists; split; [reflexivity | split].
  - destruct H1 as [->|H1]; [left; reflexivity | right; exact H1].
  - intros q [<-|Hq]; [exact H2 | apply H3; exact Hq].
Qed.

(** A constrained dimension whose predicate holds of one value at most,
    on distinct points, is squeezed or matches nothing. *)
Lemma select_squeeze (pts : list R) (f : R -> bool) :
  NoDup pts -> (forall x y, f x = true -> f y = true -> x = y) ->
  forall s, select pts (Some f) = Some s -> exists i, s = Squeeze i.
Proof.
  intros Hnd Hf s; unfold select.
  assert (Hidx : NoDup (select_idx f pts)) by apply NoDup_filter, seq_NoDup.
  destruct (select_idx f pts) as [|i [|j l]] eqn:E; [discriminate | intros H; injection H as <-; eauto |].
  exfalso.
  assert (Hi : In i (select_idx f pts)) by (rewrite E; left; reflexivity).
  assert (Hj : In j (select_idx f pts)) by (rewrite E; right; left; reflexivity).
  apply select_idx_spec in Hi as [Hi Hfi]; apply select_idx_spec in Hj as [Hj Hfj].
  inversion Hidx as [|? ? Hnin _]; subst.
  apply Hnin; left.
  exact (proj1 (NoDup_nth pts 0) Hnd j i Hj Hi (Hf _ _ Hfj Hfi)).
Qed.

(** With latitude and longitude squeezed or empty, an extraction keeps
    one dimension at most. *)
Lemma extract_le1 (sc : Cube3) (k : Constr) (e : Cube) :
  (forall s, select (lat_points sc) (clat k) = Some s -> exists i, s = Squeeze i) ->
  (forall s, select (lon_points sc) (clon k) = Some s -> exists i, s = Squeeze i) ->
  extract sc k = Some e -> (List.length (dim_coords e) <= 1)%nat.
Proof.
  intros Hl Ho; unfold extract.
  destruct (select (z_points sc) (cz k)) as [sz|]; [| discriminate].
  destruct (select (lat_points sc) (clat k)) as [sl|]; [| discriminate].
  destruct (select (lon_points sc) (clon k)) as [so|]; [| discriminate].
  destruct (Hl sl eq_refl) as [i ->], (Ho so eq_refl) as [j ->].
  destruct sz; cbn; intros H; injection H as <-; cbn; lia.
Qed.

Lemma vcs_area_needs_two_dims (k : Cube) (r_planet : R) :
  (List.length (dim_coords k) <= 1)%nat ->
  exists e, vertical_cross_section_area k r_planet = Fail e.
Proof.
  unfold vertical_cross_section_area.
  destruct (dim_coords k) as [|d0 [|d1 rest]]; cbn; intros H; [eauto | eauto | lia].
Qed.

(** ** The combination of the four boundary fluxes *)

(** C1 (as corrected): a call on the box [longitude0, longitude1,
    latitude0, latitude1] that returns a value returns
    (flux at longitude0 - flux at longitude1)
    + (flux at latitude0 - flux at latitude1), each flux being the
    successful result of its own loop iteration. *)
Theorem net_flux_combination (scalar_cube : Cube3) (lon0 lon1 lat0 lat1 : R)
    (u v : nat -> nat -> nat -> R) (r_planet : R) (vc : option (R -> bool))
    (res : R) (ws : list warning) :
  net_horizontal_flux_to_region scalar_cube (latlon_box lon0 lon1 lat0 lat1) u v r_planet vc
    = (Ok res, ws) ->
  exists f0 f1 f2 f3,
    fst (boundary_flux scalar_cube (latlon_box lon0 lon1 lat0 lat1) u v r_planet vc
           ("longitude0"%string, lon0)) = Ok f0 /\
    fst (boundary_flux scalar_cube (latlon_box lon0 lon1 lat0 lat1) u v r_planet vc
           ("longitude1"%string, lon1)) = Ok f1 /\
    fst (boundary_flux scalar_cube (latlon_box lon0 lon1 lat0 lat1) u v r_planet vc
           ("latitude0"%string, lat0)) = Ok f2 /\
    fst (boundary_flux scalar_cube (latlon_box lon0 lon1 lat0 lat1) u v r_planet vc
           ("latitude1"%string, lat1)) = Ok f3 /\
    res = (f0 - f1) + (f2 - f3).
Proof.
  intros H.
  destruct (net_ok_inv _ _ _ _ _ _ _ _ H) as (fs & f0 & f1 & f2 & f3 & Hfs & E0 & E1 & E2 & E3 & ->).
  apply Forall2_4 in Hfs as (y0 & y1 & y2 & y3 & -> & H0 & H1 & H2 & H3).
  cbn in E0, E1, E2, E3; injection E0 as <-; injection E1 as <-; injection E2 as <-;
    injection E3 as <-.
  exists y0, y1, y2, y3; auto.
Qed.

Lemma net_flux_combination_witness :
  exists res ws,
    net_horizontal_flux_to_region ex_cube (latlon_box 0 10 0 10) ex_u no_wind 180 None
      = (Ok res, ws) /\
    exists f0 f1 f2 f3,
      fst (boundary_flux ex_cube (latlon_box 0 10 0 10) ex_u no_wind 180 None
             ("longitude0"%string, 0)) = Ok f0 /\
      fst (boundary_flux ex_cube (latlon_box 0 10 0 10) ex_u no_wind 180 None
             ("longitude1"%string, 10)) = Ok f1 /\
      fst (boundary_flux ex_cube (latlon_box 0 10 0 10) ex_u no_wind 180 None
             ("latitude0"%string, 0)) = Ok f2 /\
      fst (boundary_flux ex_cube (latlon_box 0 10 0 10) ex_u no_wind 180 None
             ("latitude1"%string, 10)) = Ok f3 /\
      res = (f0 - f1) + (f2 - f3).
Proof.
  assert (H : exists res ws,
    net_horizontal_flux_to_region ex_cube (latlon_box 0 10 0 10) ex_u no_wind 180 None
      = (Ok res, ws)).
  { do 2 eexists.
    unfold net_horizontal_flux_to_region, boundary_flux, boundary_constraint,
      flux_of_constraint, ex_cube, latlon_box, nearest_coord_value.
    reval; reflexivity. }
  destruct H as (res & ws & H).
  exists res, ws; split; [exact H | exact (net_flux_combination _ _ _ _ _ _ _ _ _ _ _ H)].
Defined.

(** C1 counterexample: with an eastward wind of 1 on the western edge
    only, the flux through longitude0 is 40 pi and the other three are 0;
    the call returns 40 pi, while (longitude1 - longitude0) + (latitude1 -
    latitude0) is -40 pi. *)
Lemma net_flux_sign_inflow :
  fst (net_horizontal_flux_to_region ex_cube (latlon_box 0 10 0 10) ex_u no_wind 180 None)
    = Ok (40 * PI) /\
  fst (boundary_flux ex_cube (latlon_box 0 10 0 10) ex_u no_wind 180 None
         ("longitude0"%string, 0)) = Ok (40 * PI) /\
  fst (boundary_flux ex_cube (latlon_box 0 10 0 10) ex_u no_wind 180 None
         ("longitude1"%string, 10)) = Ok 0 /\
  fst (boundary_flux ex_cube (latlon_box 0 10 0 10) ex_u no_wind 180 None
         ("latitude0"%string, 0)) = Ok 0 /\
  fst (boundary_flux ex_cube (latlon_box 0 10 0 10) ex_u no_wind 180 None
         ("latitude1"%string, 10)) = Ok 0 /\
  40 * PI <> (0 - 40 * PI) + (0 - 0).
Proof.
  unfold net_horizontal_flux_to_region, boundary_flux, boundary_constraint,
    flux_of_constraint, ex_cube, latlon_box, nearest_coord_value.
  repeat split.
  all: try (reval; f_equal; unfold width, no_wind; cbn; field).
  pose proof PI_RGT_0; lra.
Qed.

(** ** An empty selection *)

(** C4 (as corrected): when the constraint of a boundary of the box selects
    nothing, that loop iteration fails with an [AttributeError] (the
    [None] returned by the extraction is passed to
    [vertical_cross_section_area]), before any reduction, and the call
    returns no value at all: no zero is substituted for the missing flux. *)
Theorem net_flux_empty_selection (scalar_cube : Cube3) (box : list (string * R))
    (u v : nat -> nat -> nat -> R) (r_planet : R) (vc : option (R -> bool))
    (key : string) (val : R) (d : Dim) (c : Constr) (ws : list warning) :
  In (key, val) box ->
  boundary_constraint scalar_cube box vc (key, val) = (Ok (d, c), ws) ->
  extract scalar_cube c = None ->
  fst (boundary_flux scalar_cube box u v r_planet vc (key, val)) = Fail AttributeError /\
  forall res ws', net_horizontal_flux_to_region scalar_cube box u v r_planet vc <> (Ok res, ws').
Proof.
  intros Hin Hbc Hext.
  assert (Hf : fst (boundary_flux scalar_cube box u v r_planet vc (key, val)) = Fail AttributeError).
  { unfold boundary_flux, flux_of_constraint; rewrite Hbc; cbn -[extract].
    rewrite Hext; reflexivity. }
  split; [exact Hf |].
  intros res ws' H.
  destruct (net_ok_inv _ _ _ _ _ _ _ _ H) as (fs & _ & _ & _ & _ & Hfs & _).
  destruct (Forall2_in_left _ _ _ _ Hfs Hin) as [y Hy].
  rewrite Hf in Hy; discriminate.
Qed.

Lemma net_flux_empty_selection_witness :
  In ("longitude0"%string, 0) (latlon_box 0 10 3 7) /\
  boundary_constraint ex_cube (latlon_box 0 10 3 7) None ("longitude0"%string, 0)
    = (Ok (Longitude, boundary_cnstr Longitude Latitude 0 3 7 None), []) /\
  extract ex_cube (boundary_cnstr Longitude Latitude 0 3 7 None) = None /\
  fst (boundary_flux ex_cube (latlon_box 0 10 3 7) ex_u no_wind 180 None
         ("longitude0"%string, 0)) = Fail AttributeError /\
  forall res ws', net_horizontal_flux_to_region ex_cube (latlon_box 0 10 3 7) ex_u no_wind 180 None
                  <> (Ok res, ws').
Proof.
  assert (Hin : In ("longitude0"%string, 0) (latlon_box 0 10 3 7)) by (left; reflexivity).
  assert (Hbc : boundary_constraint ex_cube (latlon_box 0 10 3 7) None ("longitude0"%string, 0)
                = (Ok (Longitude, boundary_cnstr Longitude Latitude 0 3 7 None), [])).
  { unfold boundary_constraint, boundary_cnstr, ex_cube, latlon_box, nearest_coord_value.
    reval; reflexivity. }
  assert (Hext : extract ex_cube (boundary_cnstr Longitude Latitude 0 3 7 None) = None).
  { unfold extract, ex_cube, boundary_cnstr, select, select_idx; reval; reflexivity. }
  split; [exact Hin | split; [exact Hbc | split; [exact Hext |]]].
  exact (net_flux_empty_selection _ _ _ _ _ _ _ _ _ _ _ Hin Hbc Hext).
Defined.

(** C4 counterexample: a box whose latitude range [3, 7] holds no grid
    latitude makes the loop itself fail with an [AttributeError] at the
    first boundary; the reduction of the four fluxes is never reached. *)
Lemma net_flux_empty_selection_in_loop :
  fst (mapM (boundary_flux ex_cube (latlon_box 0 10 3 7) ex_u no_wind 180 None)
            (latlon_box 0 10 3 7)) = Fail AttributeError /\
  fst (net_horizontal_flux_to_region ex_cube (latlon_box 0 10 3 7) ex_u no_wind 180 None)
    = Fail AttributeError.
Proof.
  assert (H : fst (mapM (boundary_flux ex_cube (latlon_box 0 10 3 7) ex_u no_wind 180 None)
                        (latlon_box 0 10 3 7)) = Fail AttributeError).
  { unfold boundary_flux, boundary_constraint, flux_of_constraint, ex_cube, latlon_box,
      nearest_coord_value.
    reval; reflexivity. }
  split; [exact H |].
  unfold net_horizontal_flux_to_region; apply fst_bind_fail; exact H.
Qed.

(** ** The wrapped selection, on an example *)

Lemma boundary_selection_wraparound_witness :
  exists d c ws,
    boundary_constraint ex_cube (latlon_box 10 0 0 10) None ("latitude0"%string, 0)
      = (Ok (d, c), ws) /\
    exists o od other_min other_max p,
      ll_other (drop_last "latitude0") = Some o /\ dim_of_name o = Some od /\
      lookup (o ++ "0") (latlon_box 10 0 0 10) = Some other_min /\
      lookup (o ++ "1") (latlon_box 10 0 0 10) = Some other_max /\
      constr_of c od = Some p /\
      (other_max < other_min -> forall pts i,
         In i (select_idx p pts) <->
         (i < List.length pts)%nat /\ (other_min <= nth i pts 0 \/ nth i pts 0 <= other_max)) /\
      (other_min <= other_max -> forall pts i,
         In i (select_idx p pts) <->
         (i < List.length pts)%nat /\ other_min <= nth i pts 0 <= other_max).
Proof.
  assert (H : exists d c ws,
    boundary_constraint ex_cube (latlon_box 10 0 0 10) None ("latitude0"%string, 0)
      = (Ok (d, c), ws)).
  { do 3 eexists; unfold boundary_constraint, ex_cube, latlon_box, nearest_coord_value.
    reval; reflexivity. }
  destruct H as (d & c & ws & H).
  exists d, c, ws; split; [exact H | exact (boundary_selection_wraparound _ _ _ _ _ _ _ _ H)].
Defined.

(** ** Snapping the fixed value *)

(** C6: for a boundary key [longitude?] or [latitude?] on an axis with
    grid values, the fixed value is snapped to a grid value of that axis
    nearest to it; the iteration emits exactly one warning, printing
    [np.round(n - val, 2)], when the discrepancy exceeds 10 and none
    otherwise; the constraint it builds
    fixes the axis at the snapped value; and when the box has the two
    bounds of the free axis the constraint step succeeds whatever the
    discrepancy. *)
Theorem boundary_snap_and_warn (scalar_cube : Cube3) (box : list (string * R))
    (u v : nat -> nat -> nat -> R) (r_planet : R) (vc : option (R -> bool))
    (key : string) (val : R) (o : string) (d : Dim) :
  ll_other (drop_last key) = Some o ->
  dim_of_name (drop_last key) = Some d ->
  coord_points3 scalar_cube d <> [] ->
  exists n,
    nearest_coord_value scalar_cube d val = Ok n /\
    In n (coord_points3 scalar_cube d) /\
    (forall q, In q (coord_points3 scalar_cube d) -> Rabs (n - val) <= Rabs (q - val)) /\
    (10 < Rabs (n - val) ->
     snd (boundary_flux scalar_cube box u v r_planet vc (key, val))
       = [mkWarning (drop_last key) (np_round2 (n - val))]) /\
    (Rabs (n - val) <= 10 ->
     snd (boundary_flux scalar_cube box u v r_planet vc (key, val)) = []) /\
    (forall d' c ws, boundary_constraint scalar_cube box vc (key, val) = (Ok (d', c), ws) ->
     d' = d /\ constr_of c d = Some (fun x => Reqb x n)) /\
    (forall mn mx, lookup (o ++ "0") box = Some mn -> lookup (o ++ "1") box = Some mx ->
     exists od, fst (boundary_constraint scalar_cube box vc (key, val))
                = Ok (d, boundary_cnstr d od n mn mx vc)).
Proof.
  intros Ho Hd Hne.
  destruct (nearest_coord_value_spec scalar_cube d val Hne) as (n & Hn & Hin & Hmin).
  destruct (boundary_constraint_unfold scalar_cube box vc key val o Ho)
    as (d' & od & Hd' & Hod & Hdo & HdH & HodH & Heq).
  rewrite Hd in Hd'; injection Hd' as Edd; subst d'.
  rewrite Hn in Heq.
  exists n; split; [exact Hn | split; [exact Hin | split; [exact Hmin |]]].
  assert (Hw : snd (boundary_flux scalar_cube box u v r_planet vc (key, val))
               = snap_warnings (drop_last key) n val).
  { rewrite boundary_flux_warnings, Heq.
    destruct (lookup (o ++ "0") box), (lookup (o ++ "1") box); reflexivity. }
  split.
  { intros Hgt; rewrite Hw; unfold snap_warnings.
    replace (Rltb 10 (Rabs (n - val))) with true
      by (symmetry; apply Rltb_true_iff; exact Hgt).
    reflexivity. }
  split.
  { intros Hle; rewrite Hw; unfold snap_warnings.
    destruct (Rltb 10 (Rabs (n - val))) eqn:E; [apply Rltb_true_iff in E; lra | reflexivity]. }
  split.
  - intros d'' c ws Hbc; rewrite Heq in Hbc.
    destruct (lookup (o ++ "0") box), (lookup (o ++ "1") box); try discriminate.
    injection Hbc as <- <- _.
    split; [reflexivity | apply boundary_cnstr_this; assumption].
  - intros mn mx Hmn Hmx; exists od; rewrite Heq, Hmn, Hmx; reflexivity.
Qed.

Lemma boundary_snap_and_warn_witness :
  ll_other (drop_last "longitude0") = Some "latitude"%string /\
  dim_of_name (drop_last "longitude0") = Some Longitude /\
  coord_points3 ex_cube Longitude <> [] /\
  exists n,
    nearest_coord_value ex_cube Longitude 25 = Ok n /\
    In n (coord_points3 ex_cube Longitude) /\
    (forall q, In q (coord_points3 ex_cube Longitude) -> Rabs (n - 25) <= Rabs (q - 25)) /\
    (10 < Rabs (n - 25) ->
     snd (boundary_flux ex_cube (latlon_box 25 0 0 10) ex_u no_wind 180 None
            ("longitude0"%string, 25))
       = [mkWarning (drop_last "longitude0") (np_round2 (n - 25))]) /\
    (Rabs (n - 25) <= 10 ->
     snd (boundary_flux ex_cube (latlon_box 25 0 0 10) ex_u no_wind 180 None
            ("longitude0"%string, 25)) = []) /\
    (forall d' c ws,
     boundary_constraint ex_cube (latlon_box 25 0 0 10) None ("longitude0"%string, 25)
       = (Ok (d', c), ws) ->
     d' = Longitude /\ constr_of c Longitude = Some (fun x => Reqb x n)) /\
    (forall mn mx, lookup ("latitude" ++ "0") (latlon_box 25 0 0 10) = Some mn ->
     lookup ("latitude" ++ "1") (latlon_box 25 0 0 10) = Some mx ->
     exists od, fst (boundary_constraint ex_cube (latlon_box 25 0 0 10) None
                       ("longitude0"%string, 25))
                = Ok (Longitude, boundary_cnstr Longitude od n mn mx None)).
Proof.
  assert (H1 : ll_other (drop_last "longitude0") = Some "latitude"%string) by reflexivity.
  assert (H2 : dim_of_name (drop_last "longitude0") = Some Longitude) by reflexivity.
  assert (H3 : coord_points3 ex_cube Longitude <> []) by discriminate.
  split; [exact H1 | split; [exact H2 | split; [exact H3 |]]].
  exact (boundary_snap_and_warn ex_cube (latlon_box 25 0 0 10) ex_u no_wind 180 None
           "longitude0" 25 "latitude" Longitude H1 H2 H3).
Defined.

(** ** A box closed in longitude *)

(** C7 (as corrected): with [longitude0 = longitude1] the two longitude
    iterations are the same computation, so their fluxes are equal; but on
    a scalar cube (whose dimension coordinates carry no bounds) with
    distinct latitudes and distinct longitudes the latitude0
    iteration selects the single longitude [longitude0] (or nothing), its
    section has fewer than two dimensions and
    [vertical_cross_section_area] fails, so the call returns no value. *)
Theorem net_flux_closed_longitude (scalar_cube : Cube3) (a lat0 lat1 : R)
    (u v : nat -> nat -> nat -> R) (r_planet : R) (vc : option (R -> bool)) :
  NoDup (lat_points scalar_cube) -> NoDup (lon_points scalar_cube) ->
  boundary_flux scalar_cube (latlon_box a a lat0 lat1) u v r_planet vc ("longitude0"%string, a)
  = boundary_flux scalar_cube (latlon_box a a lat0 lat1) u v r_planet vc ("longitude1"%string, a) /\
  (forall f, fst (boundary_flux scalar_cube (latlon_box a a lat0 lat1) u v r_planet vc
                    ("latitude0"%string, lat0)) <> Ok f) /\
  (forall res ws,
   net_horizontal_flux_to_region scalar_cube (latlon_box a a lat0 lat1) u v r_planet vc
   <> (Ok res, ws)).
Proof.
  intros Hlat Hlon.
  assert (Hlat0 : forall f, fst (boundary_flux scalar_cube (latlon_box a a lat0 lat1) u v
                                   r_planet vc ("latitude0"%string, lat0)) <> Ok f).
  { intros f Hf.
    apply boundary_flux_ok_inv in Hf as (d & c & ws & Hbc & Hfl).
    apply boundary_constraint_ok in Hbc
      as (o & od & n & mn & mx & Ho & Hd & Hod & Hne & HdH & HodH & Hn & Hmn & Hmx & -> & _).
    cbn in Ho; injection Ho as <-.
    cbn in Hd; injection Hd as <-.
    cbn in Hod; injection Hod as <-.
    cbn in Hmn, Hmx; injection Hmn as <-; injection Hmx as <-.
    apply flux_of_constraint_ok_area in Hfl as (ar & Har).
    unfold area_of_extracted in Har.
    destruct (extract scalar_cube (boundary_cnstr Latitude Longitude n a a vc)) as [k|] eqn:Ek;
      [| discriminate].
    apply extract_le1 in Ek.
    - destruct (vcs_area_needs_two_dims k r_planet Ek) as [e He]; congruence.
    - pose proof (boundary_cnstr_this Latitude Longitude n a a vc
                    ltac:(discriminate) ltac:(discriminate)) as Hc.
      change (clat (boundary_cnstr Latitude Longitude n a a vc) = Some (fun x => Reqb x n))
        in Hc.
      rewrite Hc; apply select_squeeze; [exact Hlat |].
      intros x y Hx Hy; apply Reqb_true_iff in Hx, Hy; congruence.
    - pose proof (boundary_cnstr_other Latitude Longitude n a a vc
                    ltac:(discriminate) ltac:(discriminate)) as Hc.
      change (clon (boundary_cnstr Latitude Longitude n a a vc) = Some (other_pred a a)) in Hc.
      rewrite Hc; apply select_squeeze; [exact Hlon |].
      intros x y Hx Hy.
      apply (proj2 (other_pred_spec a a x) (Rle_refl a)) in Hx.
      apply (proj2 (other_pred_spec a a y) (Rle_refl a)) in Hy.
      lra. }
  split; [apply boundary_flux_key; reflexivity | split; [exact Hlat0 |]].
  intros res ws H.
  destruct (net_ok_inv _ _ _ _ _ _ _ _ H) as (fs & _ & _ & _ & _ & Hfs & _).
  destruct (Forall2_in_left _ _ _ ("latitude0"%string, lat0) Hfs
              ltac:(right; right; left; reflexivity)) as [y Hy].
  exact (Hlat0 y Hy).
Qed.

Lemma net_flux_closed_longitude_witness :
  NoDup (lat_points ex_cube) /\ NoDup (lon_points ex_cube) /\
  boundary_flux ex_cube (latlon_box 0 0 0 10) ex_u no_wind 180 None ("longitude0"%string, 0)
  = boundary_flux ex_cube (latlon_box 0 0 0 10) ex_u no_wind 180 None ("longitude1"%string, 0) /\
  (forall f, fst (boundary_flux ex_cube (latlon_box 0 0 0 10) ex_u no_wind 180 None
                    ("latitude0"%string, 0)) <> Ok f) /\
  (forall res ws,
   net_horizontal_flux_to_region ex_cube (latlon_box 0 0 0 10) ex_u no_wind 180 None
   <> (Ok res, ws)).
Proof.
  assert (Hnd : NoDup [0; 10]).
  { constructor; [intros [H|[]]; lra | constructor; [intros [] | constructor]]. }
  split; [exact Hnd | split; [exact Hnd |]].
  exact (net_flux_closed_longitude ex_cube 0 0 10 ex_u no_wind 180 None Hnd Hnd).
Defined.

(** C7 counterexample: on the example field, the box with
    [longitude0 = longitude1 = 0] makes the call fail with an [IndexError]
    (the latitude0 section is one-dimensional) instead of returning the
    combination of the latitude terms. *)
Lemma net_flux_closed_longitude_fails :
  fst (net_horizontal_flux_to_region ex_cube (latlon_box 0 0 0 10) ex_u no_wind 180 None)
    = Fail IndexError.
Proof.
  unfold net_horizontal_flux_to_region, boundary_flux, boundary_constraint,
    flux_of_constraint, ex_cube, latlon_box, nearest_coord_value.
  reval; reflexivity.
Qed.

(** ** Zero wind *)

(** C9: with [u] and [v] zero everywhere, a call that returns a value
    returns exactly 0, whatever the field, the box, the radius and the
    vertical constraint. *)
Theorem net_flux_zero_wind (scalar_cube : Cube3) (box : list (string * R)) (r_planet : R)
    (vc : option (R -> bool)) (res : R) (ws : list warning) :
  net_horizontal_flux_to_region scalar_cube box (fun _ _ _ => 0) (fun _ _ _ => 0) r_planet vc
    = (Ok res, ws) ->
  res = 0.
Proof.
  intros H.
  destruct (net_ok_inv _ _ _ _ _ _ _ _ H) as (fs & f0 & f1 & f2 & f3 & Hfs & E0 & E1 & E2 & E3 & ->).
  assert (Hz : forall y, In y fs -> y = 0).
  { intros y Hy.
    destruct (Forall2_in_right _ _ _ _ Hfs Hy) as [e He].
    apply boundary_flux_ok_inv in He as (d & c & ws' & _ & Hfl).
    exact (flux_of_constraint_zero_wind _ _ _ _ _ Hfl). }
  rewrite (Hz f0 (nth_error_In _ _ E0)), (Hz f1 (nth_error_In _ _ E1)),
    (Hz f2 (nth_error_In _ _ E2)), (Hz f3 (nth_error_In _ _ E3)).
  ring.
Qed.

Lemma net_flux_zero_wind_witness :
  exists res ws,
    net_horizontal_flux_to_region ex_cube (latlon_box 0 10 0 10) no_wind no_wind 180 None
      = (Ok res, ws) /\ res = 0.
Proof.
  assert (H : exists res ws,
    net_horizontal_flux_to_region ex_cube (latlon_box 0 10 0 10) no_wind no_wind 180 None
      = (Ok res, ws)).
  { do 2 eexists.
    unfold net_horizontal_flux_to_region, boundary_flux, boundary_constraint,
      flux_of_constraint, ex_cube, latlon_box, nearest_coord_value.
    reval; reflexivity. }
  destruct H as (res & ws & H).
  exists res, ws; split; [exact H | exact (net_flux_zero_wind _ _ _ _ _ _ H)].
Defined.

(* ------------------------------------------------------------------ *)
(** * Further properties of the code *)

Lemma ensure_bounds_strip (k k' : Coord) :
  ensure_bounds k = Ok k' -> strip_bounds k' = strip_bounds k.
Proof.
  unfold ensure_bounds; destruct (bounds k).
  - intros H; injection H as <-; reflexivity.
  - destruct (guess_bounds (cname k) (points k)); [intros H; injection H as <-; reflexivity | discriminate].
Qed.

Lemma mapR_ensure_bounds (l l' : list Coord) :
  mapR ensure_bounds l = Ok l' -> map strip_bounds l' = map strip_bounds l.
Proof.
  revert l'; induction l as [|k l IH]; intros l' H; cbn in H.
  - injection H as <-; reflexivity.
  - destruct (ensure_bounds k) as [k'|e] eqn:Ek; [| discriminate].
    destruct (mapR ensure_bounds l) as [ys|e]; [| discriminate].
    injection H as <-; cbn; rewrite (ensure_bounds_strip _ _ Ek), (IH ys eq_refl); reflexivity.
Qed.

Ltac vcs_cases H :=
  repeat match type of H with
  | context [match guess_coord_axis ?x with AxisX => _ | AxisY => _ | AxisZ => _ end] =>
      destruct (guess_coord_axis x)
  | context [match coord_by_axis ?k ?a with Ok _ => _ | Fail _ => _ end] =>
      destruct (coord_by_axis k a)
  | context [match mapR ?f ?l with Ok _ => _ | Fail _ => _ end] =>
      let E := fresh "Em" in destruct (mapR f l) eqn:E
  | context [match ?r with [] => _ | _ :: _ => _ end] => destruct r
  end.

(** X1: a call of [vertical_cross_section_area] that succeeds was given a
    cube of exactly two dimensions; the result has the input's dimension
    coordinates with their bounds removed, and the input's scalar
    coordinates. *)
Theorem vcs_area_result_coords (k : Cube) (r_planet : R) (a : Cube) :
  vertical_cross_section_area k r_planet = Ok a ->
  List.length (dim_coords k) = 2%nat /\
  dim_coords a = map strip_bounds (dim_coords k) /\ aux_coords a = aux_coords k.
Proof.
  unfold vertical_cross_section_area.
  destruct (dim_coords k) as [|d0 [|d1 rest]] eqn:E; try discriminate.
  intros H; cbv zeta in H.
  vcs_cases H; try discriminate; injection H as <-; cbn;
    rewrite (mapR_ensure_bounds _ _ Em); auto.
Qed.

Ltac vcs_cases_goal :=
  repeat match goal with
  | |- context [match guess_coord_axis ?x with AxisX => _ | AxisY => _ | AxisZ => _ end] =>
      destruct (guess_coord_axis x)
  | |- context [match coord_by_axis ?k ?a with Ok _ => _ | Fail _ => _ end] =>
      destruct (coord_by_axis k a)
  | |- context [match mapR ?f ?l with Ok _ => _ | Fail _ => _ end] =>
      destruct (mapR f l)
  | |- context [match ?r with [] => _ | _ :: _ => _ end] => destruct r
  end.

(** X2: scaling the planet radius by [s] scales every area by [s] and
    leaves the coordinates as they are; the call fails for the scaled radius
    exactly when it fails for the original one, with the same error. *)
Theorem vcs_area_scale_radius (k : Cube) (r_planet s : R) :
  match vertical_cross_section_area k (s * r_planet), vertical_cross_section_area k r_planet with
  | Ok a', Ok a => dim_coords a' = dim_coords a /\ aux_coords a' = aux_coords a /\
                   forall ix, cdata a' ix = s * cdata a ix
  | Fail e', Fail e => e' = e
  | _, _ => False
  end.
Proof.
  unfold vertical_cross_section_area.
  destruct (dim_coords k) as [|d0 [|d1 rest]]; try reflexivity.
  cbv zeta; vcs_cases_goal; cbn; try reflexivity;
    (split; [reflexivity | split; [reflexivity |]]);
    intros [|i [|j [|? ?]]]; ring.
Qed.

Lemma nth_map_lt {A B} (f : A -> B) (l : list A) (d : B) (d0 : A) (i : nat) :
  (i < List.length l)%nat -> nth i (map f l) d = f (nth i l d0).
Proof.
  revert i; induction l as [|x l IH]; intros i Hi; cbn in *; [lia |].
  destruct i; [reflexivity | apply IH; lia].
Qed.

(** Strictly monotonic points in the direction [s] ([1] ascending, [-1]
    descending). *)
Lemma midpoint_bounds_width_sign (pts : list R) (s : R) (i : nat) :
  (2 <= List.length pts)%nat ->
  (forall j, (S j < List.length pts)%nat -> 0 < s * (nth (S j) pts 0 - nth j pts 0)) ->
  (i < List.length pts)%nat ->
  0 < s * width (nth i (midpoint_bounds pts) (0, 0)).
Proof.
  intros Hlen Hmono Hi; unfold midpoint_bounds.
  rewrite (nth_map_lt _ _ _ 0%nat) by (rewrite length_seq; exact Hi).
  rewrite seq_nth by exact Hi; cbn [Nat.add]; unfold width; cbn [fst snd].
  destruct i as [|i].
  - destruct (Nat.eqb 1 (List.length pts)) eqn:E; [apply Nat.eqb_eq in E; lia |].
    pose proof (Hmono 0%nat ltac:(lia)).
    replace (s * ((nth 0 pts 0 + nth 1 pts 0) / 2 - (nth 0 pts 0 - (nth 1 pts 0 - nth 0 pts 0) / 2)))
      with (s * (nth 1 pts 0 - nth 0 pts 0)) by field; lra.
  - pose proof (Hmono i ltac:(lia)) as H1.
    destruct (Nat.eqb (S (S i)) (List.length pts)) eqn:E.
    + replace (S i - 1)%nat with i by lia.
      replace (s * (nth (S i) pts 0 + (nth (S i) pts 0 - nth i pts 0) / 2
                    - (nth i pts 0 + nth (S i) pts 0) / 2))
        with (s * (nth (S i) pts 0 - nth i pts 0)) by field; lra.
    + apply Nat.eqb_neq in E.
      pose proof (Hmono (S i) ltac:(lia)) as H2.
      replace (s * ((nth (S i) pts 0 + nth (S (S i)) pts 0) / 2 - (nth i pts 0 + nth (S i) pts 0) / 2))
        with ((s * (nth (S (S i)) pts 0 - nth (S i) pts 0) + s * (nth (S i) pts 0 - nth i pts 0)) / 2)
        by field; lra.
Qed.

(** Each midpoint cell of strictly monotonic points strictly contains its
    point, in the direction [s]. *)
Lemma midpoint_cell_sign (pts : list R) (s : R) (i : nat) :
  (2 <= List.length pts)%nat ->
  (forall j, (S j < List.length pts)%nat -> 0 < s * (nth (S j) pts 0 - nth j pts 0)) ->
  (i < List.length pts)%nat ->
  0 < s * (nth i pts 0 - fst (nth i (midpoint_bounds pts) (0, 0))) /\
  0 < s * (snd (nth i (midpoint_bounds pts) (0, 0)) - nth i pts 0).
Proof.
  intros Hlen Hmono Hi; unfold midpoint_bounds.
  rewrite (nth_map_lt _ _ _ 0%nat) by (rewrite length_seq; exact Hi).
  rewrite seq_nth by exact Hi; cbn [Nat.add fst snd].
  split.
  - destruct i as [|i]; [pose proof (Hmono 0%nat ltac:(lia)); nra |].
    pose proof (Hmono i ltac:(lia)); nra.
  - destruct (Nat.eqb (S i) (List.length pts)) eqn:E.
    + apply Nat.eqb_eq in E; destruct i as [|i]; [lia |].
      replace (S i - 1)%nat with i by lia.
      pose proof (Hmono i ltac:(lia)); nra.
    + apply Nat.eqb_neq in E; pose proof (Hmono i ltac:(lia)); nra.
Qed.


(** A cell of clipped bounds is the cell itself, or the cell clipped when
    the coordinate is a latitude with all its points in [[-90, 90]]. *)
Lemma lat_clip_nth (d : Dim) (pts : list R) (b : list (R * R)) (i : nat) :
  (i < List.length b)%nat ->
  nth i (lat_clip d pts b) (0, 0) = nth i b (0, 0) \/
  (d = Latitude /\ (forall p, In p pts -> -90 <= p <= 90) /\
   nth i (lat_clip d pts b) (0, 0)
   = (clip90 (fst (nth i b (0, 0))), clip90 (snd (nth i b (0, 0))))).
Proof.
  intros Hi; destruct d; cbn; try (left; reflexivity).
  destruct (forallb _ pts) eqn:Hall; [right | left; reflexivity].
  split; [reflexivity | split].
  - intros p Hp; rewrite forallb_forall in Hall; specialize (Hall p Hp).
    apply andb_true_iff in Hall as [H1 H2].
    apply Rleb_true_iff in H1; apply Rleb_true_iff in H2; lra.
  - rewrite (nth_map_lt _ _ _ (0, 0)) by exact Hi; reflexivity.
Qed.

Lemma clip90_lt (a b : R) : a < b -> a < 90 -> -90 < b -> clip90 a < clip90 b.
Proof. intros H1 H2 H3; unfold clip90; reval; lra. Qed.


Lemma midpoint_bounds_length (pts : list R) :
  List.length (midpoint_bounds pts) = List.length pts.
Proof. unfold midpoint_bounds; rewrite length_map, length_seq; reflexivity. Qed.

(** The clip keeps the sign of every width of strictly monotonic points. *)
Lemma lat_clip_width_sign (d : Dim) (pts : list R) (s : R) (i : nat) :
  (2 <= List.length pts)%nat ->
  (forall j, (S j < List.length pts)%nat -> 0 < s * (nth (S j) pts 0 - nth j pts 0)) ->
  (i < List.length pts)%nat ->
  0 < s * width (nth i (lat_clip d pts (midpoint_bounds pts)) (0, 0)).
Proof.
  intros Hlen Hmono Hi.
  pose proof (midpoint_bounds_width_sign pts s i Hlen Hmono Hi) as Hw.
  destruct (midpoint_cell_sign pts s i Hlen Hmono Hi) as [Hl Hu].
  destruct (lat_clip_nth d pts (midpoint_bounds pts) i) as [-> | (_ & Hin & ->)];
    [rewrite midpoint_bounds_length; exact Hi | exact Hw |].
  pose proof (Hin _ (nth_In _ 0 Hi)) as Hp.
  unfold width; cbn [fst snd].
  set (l := fst (nth i (midpoint_bounds pts) (0, 0))) in *.
  set (u := snd (nth i (midpoint_bounds pts) (0, 0))) in *.
  set (p := nth i pts 0) in *.
  destruct (Rlt_or_le 0 s) as [Hs | Hs].
  - assert (l < p) by nra. assert (p < u) by nra.
    pose proof (clip90_lt l u ltac:(lra) ltac:(lra) ltac:(lra)).
    apply Rmult_lt_0_compat; lra.
  - assert (Hs' : s < 0) by (destruct Hs as [Hs | Hs]; [exact Hs | subst s; lra]).
    assert (p < l) by nra. assert (u < p) by nra.
    pose proof (clip90_lt u l ltac:(lra) ltac:(lra) ltac:(lra)).
    nra.
Qed.

(** X3: for two dimension coordinates without bounds, each of at least two
    strictly monotonic points (ascending for direction [1], descending for
    [-1]), a positive radius and, when the second coordinate is an "X"
    coordinate, a "Y" coordinate whose first point lies strictly between -90
    and 90, the call succeeds and every area has the sign [sz * sx] of the
    two directions. *)
Theorem vcs_area_sign (z x : Coord) (aux : list Coord) (data : list nat -> R)
    (r_planet sz sx : R) :
  bounds z = None -> bounds x = None ->
  (2 <= List.length (points z))%nat -> (2 <= List.length (points x))%nat ->
  (forall j, (S j < List.length (points z))%nat ->
     0 < sz * (nth (S j) (points z) 0 - nth j (points z) 0)) ->
  (forall j, (S j < List.length (points x))%nat ->
     0 < sx * (nth (S j) (points x) 0 - nth j (points x) 0)) ->
  0 < r_planet ->
  (guess_coord_axis (cname x) = AxisX ->
   exists y, coord_by_axis (mkCube [z; x] aux data) AxisY = Ok y /\
             -90 < hd 0 (points y) < 90) ->
  exists a, vertical_cross_section_area (mkCube [z; x] aux data) r_planet = Ok a /\
    forall i j, (i < List.length (points z))%nat -> (j < List.length (points x))%nat ->
      0 < sz * sx * cdata a [i; j].
Proof.
  intros Hbz Hbx Hlz Hlx Hmz Hmx Hr HY.
  assert (Hm : exists m, 0 < m /\
    match guess_coord_axis (cname x) with
    | AxisX => match coord_by_axis (mkCube [z; x] aux data) AxisY with
               | Ok y => Ok (PI / 180 * r_planet * cos (deg2rad (hd 0 (points y))))
               | Fail e => Fail e end
    | _ => Ok (PI / 180 * r_planet)
    end = Ok m).
  { pose proof PI_RGT_0 as Hpi.
    destruct (guess_coord_axis (cname x)) eqn:Ex.
    - destruct (HY eq_refl) as (y & -> & Hy1 & Hy2).
      eexists; split; [| reflexivity].
      apply Rmult_lt_0_compat; [apply Rmult_lt_0_compat; [lra | exact Hr] |].
      apply cos_gt_0; unfold deg2rad; nra.
    - eexists; split; [| reflexivity]; apply Rmult_lt_0_compat; lra.
    - eexists; split; [| reflexivity]; apply Rmult_lt_0_compat; lra. }
  destruct Hm as (m & Hm0 & Hm).
  unfold vertical_cross_section_area; cbn [dim_coords]; cbv zeta.
  rewrite Hm; cbn [mapR]; unfold ensure_bounds.
  rewrite Hbz, Hbx, !guess_bounds_midpoint by assumption; cbn.
  eexists; split; [reflexivity |].
  intros i j Hi Hj; cbn.
  pose proof (lat_clip_width_sign (cname z) _ _ i Hlz Hmz Hi) as Wz.
  pose proof (lat_clip_width_sign (cname x) _ _ j Hlx Hmx Hj) as Wx.
  replace (sz * sx * (width (nth i (lat_clip (cname z) (points z) (midpoint_bounds (points z))) (0, 0))
             * (width (nth j (lat_clip (cname x) (points x) (midpoint_bounds (points x))) (0, 0)) * m)))
    with ((sz * width (nth i (lat_clip (cname z) (points z) (midpoint_bounds (points z))) (0, 0)))
          * (sx * width (nth j (lat_clip (cname x) (points x) (midpoint_bounds (points x))) (0, 0)))
          * m) by ring.
  apply Rmult_lt_0_compat; [apply Rmult_lt_0_compat |]; assumption.
Qed.

Lemma fst_bind_eq {A B} (m : M A) (k : A -> M B) :
  fst (bind m k) = match fst m with Ok a => fst (k a) | Fail e => Fail e end.
Proof. destruct m as [[a|e] w]; cbn; [destruct (k a); reflexivity | reflexivity]. Qed.

Lemma fst_mapM_cons {A B} (F : A -> M B) (x : A) (xs : list A) :
  fst (mapM F (x :: xs)) =
  match fst (F x) with
  | Ok y => match fst (mapM F xs) with Ok ys => Ok (y :: ys) | Fail e => Fail e end
  | Fail e => Fail e
  end.
Proof.
  cbn [mapM]; rewrite fst_bind_eq.
  destruct (fst (F x)); [rewrite fst_bind_eq; destruct (fst (mapM F xs)) |]; reflexivity.
Qed.

Lemma net_fst (scalar_cube : Cube3) (box : list (string * R)) (u v : nat -> nat -> nat -> R)
    (r_planet : R) (vc : option (R -> bool)) :
  fst (net_horizontal_flux_to_region scalar_cube box u v r_planet vc) =
  match fst (mapM (boundary_flux scalar_cube box u v r_planet vc) box) with
  | Ok fs =>
      match nth_error fs 0, nth_error fs 1, nth_error fs 2, nth_error fs 3 with
      | Some f0, Some f1, Some f2, Some f3 => Ok ((f0 - f1) + (f2 - f3))
      | _, _, _, _ => Fail IndexError
      end
  | Fail e => Fail e
  end.
Proof.
  unfold net_horizontal_flux_to_region; rewrite fst_bind_eq.
  destruct (fst (mapM _ box)) as [fs|e]; [| reflexivity].
  destruct (nth_error fs 0), (nth_error fs 1), (nth_error fs 2), (nth_error fs 3); reflexivity.
Qed.

(** Three runs of a loop that fail alike and whose values combine by [op]. *)
Lemma mapM_lift3 {A} (F1 F2 F : A -> M R) (op : R -> R -> R) (l : list A) :
  (forall e, In e l ->
     (exists er, fst (F1 e) = Fail er /\ fst (F2 e) = Fail er /\ fst (F e) = Fail er) \/
     (exists a b, fst (F1 e) = Ok a /\ fst (F2 e) = Ok b /\ fst (F e) = Ok (op a b))) ->
  (exists er, fst (mapM F1 l) = Fail er /\ fst (mapM F2 l) = Fail er /\
              fst (mapM F l) = Fail er) \/
  (exists l1 l2 l3, fst (mapM F1 l) = Ok l1 /\ fst (mapM F2 l) = Ok l2 /\
     fst (mapM F l) = Ok l3 /\
     forall i, match nth_error l1 i, nth_error l2 i, nth_error l3 i with
               | Some a, Some b, Some c => c = op a b
               | None, None, None => True
               | _, _, _ => False
               end).
Proof.
  induction l as [|x xs IH]; intros H.
  - right; exists [], [], []; repeat split; intros [|i]; exact I.
  - rewrite !fst_mapM_cons.
    destruct (H x (or_introl eq_refl)) as [(er & E1 & E2 & E) | (a & b & E1 & E2 & E)];
      rewrite E1, E2, E; [left; exists er; auto |].
    destruct (IH (fun e He => H e (or_intror He)))
      as [(er & G1 & G2 & G) | (l1 & l2 & l3 & G1 & G2 & G & Gi)];
      rewrite G1, G2, G; [left; exists er; auto |].
    right; exists (a :: l1), (b :: l2), (op a b :: l3); repeat split.
    intros [|i]; [reflexivity | exact (Gi i)].
Qed.

Lemma net_lift3 (sc1 sc2 sc : Cube3) (box : list (string * R))
    (u1 v1 u2 v2 u v : nat -> nat -> nat -> R) (r1 r2 r : R) (vc : option (R -> bool))
    (op : R -> R -> R) :
  (forall a0 b0 a1 b1 a2 b2 a3 b3,
     (op a0 b0 - op a1 b1) + (op a2 b2 - op a3 b3)
     = op ((a0 - a1) + (a2 - a3)) ((b0 - b1) + (b2 - b3))) ->
  (forall e, In e box ->
     (exists er, fst (boundary_flux sc1 box u1 v1 r1 vc e) = Fail er /\
                 fst (boundary_flux sc2 box u2 v2 r2 vc e) = Fail er /\
                 fst (boundary_flux sc box u v r vc e) = Fail er) \/
     (exists a b, fst (boundary_flux sc1 box u1 v1 r1 vc e) = Ok a /\
                  fst (boundary_flux sc2 box u2 v2 r2 vc e) = Ok b /\
                  fst (boundary_flux sc box u v r vc e) = Ok (op a b))) ->
  fst (net_horizontal_flux_to_region sc box u v r vc) =
  match fst (net_horizontal_flux_to_region sc1 box u1 v1 r1 vc),
        fst (net_horizontal_flux_to_region sc2 box u2 v2 r2 vc) with
  | Ok x, Ok y => Ok (op x y)
  | Fail e, _ => Fail e
  | Ok _, Fail e => Fail e
  end.
Proof.
  intros Hlin H; rewrite !net_fst.
  destruct (mapM_lift3 (boundary_flux sc1 box u1 v1 r1 vc) (boundary_flux sc2 box u2 v2 r2 vc)
              (boundary_flux sc box u v r vc) op box H)
    as [(er & G1 & G2 & G) | (l1 & l2 & l3 & G1 & G2 & G & Gi)];
    [rewrite G1, G; reflexivity | rewrite G1, G2, G].
  pose proof (Gi 0%nat) as I0; pose proof (Gi 1%nat) as I1;
    pose proof (Gi 2%nat) as I2; pose proof (Gi 3%nat) as I3.
  destruct (nth_error l1 0), (nth_error l2 0), (nth_error l3 0); try contradiction;
  destruct (nth_error l1 1), (nth_error l2 1), (nth_error l3 1); try contradiction;
  destruct (nth_error l1 2), (nth_error l2 2), (nth_error l3 2); try contradiction;
  destruct (nth_error l1 3), (nth_error l2 3), (nth_error l3 3); try contradiction;
  subst; try reflexivity.
  rewrite Hlin; reflexivity.
Qed.

(** The loop iteration lifted from its flux step, when the constraint
    step is the same in the three runs. *)
Lemma entry_lift3 (m : M (Dim * Constr)) (G1 G2 G : Dim -> Constr -> M R) (op : R -> R -> R) :
  (forall d c,
     (exists er, fst (G1 d c) = Fail er /\ fst (G2 d c) = Fail er /\ fst (G d c) = Fail er) \/
     (exists a b, fst (G1 d c) = Ok a /\ fst (G2 d c) = Ok b /\ fst (G d c) = Ok (op a b))) ->
  (exists er, fst (bind m (fun p => G1 (fst p) (snd p))) = Fail er /\
              fst (bind m (fun p => G2 (fst p) (snd p))) = Fail er /\
              fst (bind m (fun p => G (fst p) (snd p))) = Fail er) \/
  (exists a b, fst (bind m (fun p => G1 (fst p) (snd p))) = Ok a /\
               fst (bind m (fun p => G2 (fst p) (snd p))) = Ok b /\
               fst (bind m (fun p => G (fst p) (snd p))) = Ok (op a b)).
Proof.
  intros H; rewrite !fst_bind_eq.
  destruct (fst m) as [[d c]|er]; [exact (H d c) | left; exists er; auto].
Qed.

Lemma boundary_constraint_points (c1 c2 : Cube3) (box : list (string * R))
    (vc : option (R -> bool)) (e : string * R) :
  z_points c1 = z_points c2 -> lat_points c1 = lat_points c2 -> lon_points c1 = lon_points c2 ->
  boundary_constraint c1 box vc e = boundary_constraint c2 box vc e.
Proof.
  intros Hz Hl Ho; destruct e as [key val].
  unfold boundary_constraint, nearest_coord_value, coord_points3.
  rewrite Hz, Hl, Ho; reflexivity.
Qed.

Lemma extract_lin (c1 c2 c : Cube3) (a b : R) (k : Constr) :
  z_points c1 = z_points c -> lat_points c1 = lat_points c -> lon_points c1 = lon_points c ->
  z_points c2 = z_points c -> lat_points c2 = lat_points c -> lon_points c2 = lon_points c ->
  (forall i j l, values c i j l = a * values c1 i j l + b * values c2 i j l) ->
  match extract c1 k, extract c2 k, extract c k with
  | Some w1, Some w2, Some w =>
      dim_coords w1 = dim_coords w /\ dim_coords w2 = dim_coords w /\
      aux_coords w1 = aux_coords w /\ aux_coords w2 = aux_coords w /\
      forall ix, cdata w ix = a * cdata w1 ix + b * cdata w2 ix
  | None, None, None => True
  | _, _, _ => False
  end.
Proof.
  intros Hz1 Hl1 Ho1 Hz2 Hl2 Ho2 Hv; unfold extract.
  rewrite Hz1, Hl1, Ho1, Hz2, Hl2, Ho2.
  destruct (select (z_points c) (cz k)) as [sz|]; [| exact I].
  destruct (select (lat_points c) (clat k)) as [sl|]; [| exact I].
  destruct (select (lon_points c) (clon k)) as [so|]; [| exact I].
  destruct (sel_coords Height _ sz), (sel_coords Latitude _ sl), (sel_coords Longitude _ so).
  cbn; repeat split; intros ix.
  destruct (pick sz ix) as [i ix1], (pick sl ix1) as [j ix2], (pick so ix2) as [i3 ?].
  apply Hv.
Qed.

Lemma fold_right_Rplus_lin {A} (f f1 f2 : A -> R) (a b : R) (l : list A) :
  (forall x, f x = a * f1 x + b * f2 x) ->
  fold_right Rplus 0 (map f l) =
  a * fold_right Rplus 0 (map f1 l) + b * fold_right Rplus 0 (map f2 l).
Proof. intros H; induction l as [|x l IH]; cbn; [ring | rewrite H, IH; ring]. Qed.

Lemma collapsed_sum_lin (w1 w2 w : Cube) (a b : R) :
  shape w1 = shape w -> shape w2 = shape w ->
  (forall ix, cdata w ix = a * cdata w1 ix + b * cdata w2 ix) ->
  collapsed_sum w = a * collapsed_sum w1 + b * collapsed_sum w2.
Proof.
  intros H1 H2 H; unfold collapsed_sum; rewrite H1, H2.
  apply fold_right_Rplus_lin; exact H.
Qed.

Lemma vcs_area_coords (k1 k2 : Cube) (r_planet : R) :
  dim_coords k1 = dim_coords k2 -> aux_coords k1 = aux_coords k2 ->
  vertical_cross_section_area k1 r_planet = vertical_cross_section_area k2 r_planet.
Proof.
  intros H1 H2; unfold vertical_cross_section_area, coord_by_axis.
  rewrite H1, H2; reflexivity.
Qed.

Lemma shape_cube_mul (x y : Cube) : shape (cube_mul x y) = shape x.
Proof. reflexivity. Qed.

(** The product and sum after the area step are linear in the wind. *)
Lemma flux_tail_wind_lin (sc : Cube3) (w1 w2 : nat -> nat -> nat -> R) (a b : R)
    (c : Constr) (ar : Cube) :
  (exists er,
     fst (match extract (with_values sc w1) c, extract sc c with
          | Some w, Some s => ret (collapsed_sum (cube_mul (cube_mul w s) ar))
          | _, _ => raise TypeError end) = Fail er /\
     fst (match extract (with_values sc w2) c, extract sc c with
          | Some w, Some s => ret (collapsed_sum (cube_mul (cube_mul w s) ar))
          | _, _ => raise TypeError end) = Fail er /\
     fst (match extract (with_values sc (fun i j l => a * w1 i j l + b * w2 i j l)) c,
                extract sc c with
          | Some w, Some s => ret (collapsed_sum (cube_mul (cube_mul w s) ar))
          | _, _ => raise TypeError end) = Fail er) \/
  (exists x y,
     fst (match extract (with_values sc w1) c, extract sc c with
          | Some w, Some s => ret (collapsed_sum (cube_mul (cube_mul w s) ar))
          | _, _ => raise TypeError end) = Ok x /\
     fst (match extract (with_values sc w2) c, extract sc c with
          | Some w, Some s => ret (collapsed_sum (cube_mul (cube_mul w s) ar))
          | _, _ => raise TypeError end) = Ok y /\
     fst (match extract (with_values sc (fun i j l => a * w1 i j l + b * w2 i j l)) c,
                extract sc c with
          | Some w, Some s => ret (collapsed_sum (cube_mul (cube_mul w s) ar))
          | _, _ => raise TypeError end) = Ok (a * x + b * y)).
Proof.
  pose proof (extract_lin (with_values sc w1) (with_values sc w2)
                (with_values sc (fun i j l => a * w1 i j l + b * w2 i j l)) a b c
                eq_refl eq_refl eq_refl eq_refl eq_refl eq_refl (fun i j l => eq_refl)) as H.
  destruct (extract (with_values sc w1) c) as [x1|],
           (extract (with_values sc w2) c) as [x2|],
           (extract (with_values sc _) c) as [x|]; try contradiction;
    destruct (extract sc c) as [s|]; try (left; exists TypeError; auto; fail).
  destruct H as (D1 & D2 & _ & _ & Hd).
  right; do 2 eexists; split; [reflexivity | split; [reflexivity |]]; cbn [fst ret]; f_equal.
  apply collapsed_sum_lin; [unfold shape; cbn; rewrite D1; reflexivity
                           | unfold shape; cbn; rewrite D2; reflexivity |].
  intros ix; cbn; rewrite Hd; ring.
Qed.

(** The flux step is linear in the wind. *)
Lemma flux_of_constraint_wind_lin (sc : Cube3) (u1 v1 u2 v2 : nat -> nat -> nat -> R)
    (r_planet a b : R) (d : Dim) (c : Constr) :
  (exists er, fst (flux_of_constraint sc u1 v1 r_planet d c) = Fail er /\
              fst (flux_of_constraint sc u2 v2 r_planet d c) = Fail er /\
              fst (flux_of_constraint sc (fun i j l => a * u1 i j l + b * u2 i j l)
                     (fun i j l => a * v1 i j l + b * v2 i j l) r_planet d c) = Fail er) \/
  (exists x y, fst (flux_of_constraint sc u1 v1 r_planet d c) = Ok x /\
               fst (flux_of_constraint sc u2 v2 r_planet d c) = Ok y /\
               fst (flux_of_constraint sc (fun i j l => a * u1 i j l + b * u2 i j l)
                      (fun i j l => a * v1 i j l + b * v2 i j l) r_planet d c)
               = Ok (a * x + b * y)).
Proof.
  unfold flux_of_constraint; rewrite !fst_bind_eq; cbn [fst of_result].
  destruct (area_of_extracted (extract sc c) r_planet) as [ar|er]; [| left; eauto].
  destruct d; [exact (flux_tail_wind_lin sc v1 v2 a b c ar) | exact (flux_tail_wind_lin sc v1 v2 a b c ar)
              | exact (flux_tail_wind_lin sc u1 u2 a b c ar)].
Qed.

(** The flux step is linear in the scalar field, over a fixed grid. *)
Lemma flux_of_constraint_scalar_lin (sc1 sc2 sc : Cube3) (u v : nat -> nat -> nat -> R)
    (r_planet a b : R) (d : Dim) (c : Constr) :
  z_points sc1 = z_points sc -> lat_points sc1 = lat_points sc -> lon_points sc1 = lon_points sc ->
  z_points sc2 = z_points sc -> lat_points sc2 = lat_points sc -> lon_points sc2 = lon_points sc ->
  (forall i j l, values sc i j l = a * values sc1 i j l + b * values sc2 i j l) ->
  (exists er, fst (flux_of_constraint sc1 u v r_planet d c) = Fail er /\
              fst (flux_of_constraint sc2 u v r_planet d c) = Fail er /\
              fst (flux_of_constraint sc u v r_planet d c) = Fail er) \/
  (exists x y, fst (flux_of_constraint sc1 u v r_planet d c) = Ok x /\
               fst (flux_of_constraint sc2 u v r_planet d c) = Ok y /\
               fst (flux_of_constraint sc u v r_planet d c) = Ok (a * x + b * y)).
Proof.
  intros Hz1 Hl1 Ho1 Hz2 Hl2 Ho2 Hv.
  unfold flux_of_constraint; rewrite !fst_bind_eq; cbn [fst of_result].
  pose proof (extract_lin sc1 sc2 sc a b c Hz1 Hl1 Ho1 Hz2 Hl2 Ho2 Hv) as H.
  destruct (extract sc1 c) as [s1|], (extract sc2 c) as [s2|], (extract sc c) as [s|];
    try contradiction; cbn [area_of_extracted]; [| left; exists AttributeError; auto].
  destruct H as (D1 & D2 & A1 & A2 & Hd).
  rewrite (vcs_area_coords s1 s r_planet D1 A1), (vcs_area_coords s2 s r_planet D2 A2).
  destruct (vertical_cross_section_area s r_planet) as [ar|er]; [| left; eauto].
  cbv beta iota; unfold with_values; rewrite Hz1, Hl1, Ho1, Hz2, Hl2, Ho2.
  destruct (extract _ c) as [w|]; [| left; exists TypeError; auto].
  right; do 2 eexists; split; [reflexivity | split; [reflexivity |]]; cbn [fst ret]; f_equal.
  apply collapsed_sum_lin; [reflexivity | reflexivity |].
  intros ix; cbn; rewrite Hd; ring.
Qed.

(** The flux step scales with the planet radius. *)
Lemma flux_of_constraint_radius (sc : Cube3) (u v : nat -> nat -> nat -> R)
    (r_planet s : R) (d : Dim) (c : Constr) :
  (exists er, fst (flux_of_constraint sc u v r_planet d c) = Fail er /\
              fst (flux_of_constraint sc u v r_planet d c) = Fail er /\
              fst (flux_of_constraint sc u v (s * r_planet) d c) = Fail er) \/
  (exists x y, fst (flux_of_constraint sc u v r_planet d c) = Ok x /\
               fst (flux_of_constraint sc u v r_planet d c) = Ok y /\
               fst (flux_of_constraint sc u v (s * r_planet) d c) = Ok (s * x)).
Proof.
  unfold flux_of_constraint; rewrite !fst_bind_eq; cbn [fst of_result].
  destruct (extract sc c) as [k|]; cbn [area_of_extracted]; [| left; exists AttributeError; auto].
  pose proof (vcs_area_scale_radius k r_planet s) as H.
  destruct (vertical_cross_section_area k (s * r_planet)) as [ar'|e'],
           (vertical_cross_section_area k r_planet) as [ar|e]; try contradiction;
    [| subst; left; eauto].
  destruct H as (D & A & Hd); cbv beta iota.
  destruct (extract (with_values sc _) c) as [w|]; [| left; exists TypeError; auto].
  right; do 2 eexists; split; [reflexivity | split; [reflexivity |]]; cbn [fst ret]; f_equal.
  rewrite (collapsed_sum_lin (cube_mul (cube_mul w k) ar) (cube_mul (cube_mul w k) ar)
             (cube_mul (cube_mul w k) ar') s 0 eq_refl eq_refl); [ring |].
  intros ix; cbn; rewrite Hd; ring.
Qed.

(** X5: scaling the planet radius by [s] scales the net flux by [s]; the
    call fails for the scaled radius exactly when it fails for the original
    one, with the same error. *)
Theorem net_flux_radius_scaling (sc : Cube3) (box : list (string * R))
    (u v : nat -> nat -> nat -> R) (r_planet s : R) (vc : option (R -> bool)) :
  fst (net_horizontal_flux_to_region sc box u v (s * r_planet) vc) =
  match fst (net_horizontal_flux_to_region sc box u v r_planet vc) with
  | Ok x => Ok (s * x)
  | Fail e => Fail e
  end.
Proof.
  rewrite (net_lift3 sc sc sc box u v u v u v r_planet r_planet (s * r_planet) vc
             (fun x _ => s * x)).
  - destruct (fst (net_horizontal_flux_to_region sc box u v r_planet vc)); reflexivity.
  - intros; ring.
  - intros e _; unfold boundary_flux.
    apply (entry_lift3 (boundary_constraint sc box vc e) (flux_of_constraint sc u v r_planet)
             (flux_of_constraint sc u v r_planet) (flux_of_constraint sc u v (s * r_planet))
             (fun x _ => s * x)).
    intros d c; apply flux_of_constraint_radius.
Qed.

(** X6: the net flux is linear in the wind: with the wind components
    [a * u1 + b * u2] and [a * v1 + b * v2] it is [a * F1 + b * F2], where
    [F1] and [F2] are the net fluxes for [(u1, v1)] and [(u2, v2)]; it fails
    exactly when one of those fails, with the first one's error. *)
Theorem net_flux_wind_linear (sc : Cube3) (box : list (string * R))
    (u1 v1 u2 v2 : nat -> nat -> nat -> R) (r_planet a b : R) (vc : option (R -> bool)) :
  fst (net_horizontal_flux_to_region sc box (fun i j l => a * u1 i j l + b * u2 i j l)
         (fun i j l => a * v1 i j l + b * v2 i j l) r_planet vc) =
  match fst (net_horizontal_flux_to_region sc box u1 v1 r_planet vc),
        fst (net_horizontal_flux_to_region sc box u2 v2 r_planet vc) with
  | Ok x, Ok y => Ok (a * x + b * y)
  | Fail e, _ => Fail e
  | Ok _, Fail e => Fail e
  end.
Proof.
  apply (net_lift3 sc sc sc box u1 v1 u2 v2 _ _ r_planet r_planet r_planet vc
           (fun x y => a * x + b * y)).
  - intros; ring.
  - intros e _; unfold boundary_flux.
    apply (entry_lift3 (boundary_constraint sc box vc e) (flux_of_constraint sc u1 v1 r_planet)
             (flux_of_constraint sc u2 v2 r_planet)
             (flux_of_constraint sc (fun i j l => a * u1 i j l + b * u2 i j l)
                (fun i j l => a * v1 i j l + b * v2 i j l) r_planet)
             (fun x y => a * x + b * y)).
    intros d c; apply flux_of_constraint_wind_lin.
Qed.

(** X7: the net flux is linear in the scalar field on a fixed grid: for
    cubes with the same points whose values are [a * values1 + b * values2]
    it is [a * F1 + b * F2], and it fails exactly when one of [F1], [F2]
    fails, with the first one's error. *)
Theorem net_flux_scalar_linear (sc1 sc2 sc : Cube3) (box : list (string * R))
    (u v : nat -> nat -> nat -> R) (r_planet a b : R) (vc : option (R -> bool)) :
  z_points sc1 = z_points sc -> lat_points sc1 = lat_points sc -> lon_points sc1 = lon_points sc ->
  z_points sc2 = z_points sc -> lat_points sc2 = lat_points sc -> lon_points sc2 = lon_points sc ->
  (forall i j l, values sc i j l = a * values sc1 i j l + b * values sc2 i j l) ->
  fst (net_horizontal_flux_to_region sc box u v r_planet vc) =
  match fst (net_horizontal_flux_to_region sc1 box u v r_planet vc),
        fst (net_horizontal_flux_to_region sc2 box u v r_planet vc) with
  | Ok x, Ok y => Ok (a * x + b * y)
  | Fail e, _ => Fail e
  | Ok _, Fail e => Fail e
  end.
Proof.
  intros Hz1 Hl1 Ho1 Hz2 Hl2 Ho2 Hv.
  apply (net_lift3 sc1 sc2 sc box u v u v u v r_planet r_planet r_planet vc
           (fun x y => a * x + b * y)).
  - intros; ring.
  - intros e _; unfold boundary_flux.
    rewrite (boundary_constraint_points sc1 sc box vc e Hz1 Hl1 Ho1),
      (boundary_constraint_points sc2 sc box vc e Hz2 Hl2 Ho2).
    apply (entry_lift3 (boundary_constraint sc box vc e) (flux_of_constraint sc1 u v r_planet)
             (flux_of_constraint sc2 u v r_planet) (flux_of_constraint sc u v r_planet)
             (fun x y => a * x + b * y)).
    intros d c; apply flux_of_constraint_scalar_lin; assumption.
Qed.

Lemma net_snd (scalar_cube : Cube3) (box : list (string * R)) (u v : nat -> nat -> nat -> R)
    (r_planet : R) (vc : option (R -> bool)) :
  snd (net_horizontal_flux_to_region scalar_cube box u v r_planet vc) =
  snd (mapM (boundary_flux scalar_cube box u v r_planet vc) box).
Proof.
  unfold net_horizontal_flux_to_region; rewrite snd_bind.
  destruct (fst (mapM _ box)) as [fs|e]; [| apply app_nil_r].
  destruct (nth_error fs 0), (nth_error fs 1), (nth_error fs 2), (nth_error fs 3);
    cbn; apply app_nil_r.
Qed.

Lemma mapM_snd {A B} (f : A -> M B) (P : warning -> Prop) (l : list A) :
  (forall x, In x l -> (List.length (snd (f x)) <= 1)%nat /\ Forall P (snd (f x))) ->
  (List.length (snd (mapM f l)) <= List.length l)%nat /\ Forall P (snd (mapM f l)).
Proof.
  induction l as [|x l IH]; intros H; [cbn; split; [lia | constructor] |].
  cbn [mapM]; rewrite snd_bind.
  destruct (H x (or_introl eq_refl)) as [H1 H2].
  destruct (IH (fun y Hy => H y (or_intror Hy))) as [H3 H4].
  destruct (fst (f x)) as [y|e]; cbn [fst snd].
  - rewrite snd_bind; destruct (fst (mapM f l)); cbn [snd ret];
      rewrite !length_app, ?app_nil_r; cbn; rewrite ?Nat.add_0_r;
      (split; [lia | apply Forall_app; auto]).
  - rewrite app_nil_r; cbn [List.length]; split; [lia | exact H2].
Qed.

Lemma boundary_constraint_no_partner (scalar_cube : Cube3) (box : list (string * R))
    (vc : option (R -> bool)) (key : string) (val : R) :
  ll_other (drop_last key) = None ->
  boundary_constraint scalar_cube box vc (key, val) = (Fail KeyError, []).
Proof.
  intros H; cbv beta iota zeta delta [boundary_constraint]; rewrite H; reflexivity.
Qed.

Lemma rint_cases (x : R) : rint x = Int_part x \/ rint x = (Int_part x + 1)%Z.
Proof.
  unfold rint; destruct (Rltb _ (1 / 2)); [auto |].
  destruct (Rltb (1 / 2) _); [auto |]; destruct (Z.even _); auto.
Qed.

(** Rounding to two decimals keeps a discrepancy of more than 10 at 10 or
    more. *)
Lemma np_round2_abs (x : R) : 10 < Rabs x -> 10 <= Rabs (np_round2 x).
Proof.
  intros H; unfold np_round2.
  destruct (base_Int_part (x * 100)) as [H1 H2].
  pose proof (rint_cases (x * 100)) as Hr.
  set (f := Int_part (x * 100)) in *.
  destruct (Rle_or_lt 0 x) as [Hx | Hx].
  - rewrite Rabs_pos_eq in H by lra.
    assert (Hf : (999 < f)%Z) by (apply lt_IZR; lra).
    assert (Hq : (1000 <= rint (x * 100))%Z) by (destruct Hr as [-> | ->]; lia).
    apply IZR_le in Hq.
    rewrite Rabs_pos_eq; lra.
  - rewrite Rabs_left in H by lra.
    assert (Hf : (f < -1000)%Z) by (apply lt_IZR; lra).
    assert (Hq : (rint (x * 100) <= -1000)%Z) by (destruct Hr as [-> | ->]; lia).
    apply IZR_le in Hq.
    rewrite Rabs_left; lra.
Qed.

Lemma boundary_flux_warning_shape (scalar_cube : Cube3) (box : list (string * R))
    (u v : nat -> nat -> nat -> R) (r_planet : R) (vc : option (R -> bool)) (e : string * R) :
  (List.length (snd (boundary_flux scalar_cube box u v r_planet vc e)) <= 1)%nat /\
  Forall (fun w => (w_coord w = "longitude"%string \/ w_coord w = "latitude"%string) /\
                   10 <= Rabs (w_delta w))
         (snd (boundary_flux scalar_cube box u v r_planet vc e)).
Proof.
  rewrite boundary_flux_warnings; destruct e as [key val].
  destruct (ll_other (drop_last key)) as [o|] eqn:Ho;
    [| rewrite boundary_constraint_no_partner by exact Ho; cbn; split; [lia | constructor]].
  destruct (boundary_constraint_unfold scalar_cube box vc key val o Ho)
    as (d & od & _ & _ & _ & _ & _ & ->).
  destruct (nearest_coord_value scalar_cube d val) as [n|er]; cbn [snd];
    [| split; [cbn; lia | constructor]].
  unfold snap_warnings; destruct (Rltb 10 (Rabs (n - val))) eqn:E; cbn [snd];
    [| split; [cbn; lia | constructor]].
  apply Rltb_true_iff in E.
  split; [cbn; lia |]; constructor; [| constructor]; cbn [w_coord w_delta];
    split; [| apply np_round2_abs; exact E].
  destruct (ll_other_cases _ _ Ho) as [[-> _] | [-> _]]; auto.
Qed.

(** X8: a call emits at most one warning per box entry, and every warning
    is about "longitude" or "latitude" and prints a discrepancy (rounded to
    two decimals) of at least 10 in absolute value. *)
Theorem net_flux_warnings (scalar_cube : Cube3) (box : list (string * R))
    (u v : nat -> nat -> nat -> R) (r_planet : R) (vc : option (R -> bool)) :
  (List.length (snd (net_horizontal_flux_to_region scalar_cube box u v r_planet vc))
     <= List.length box)%nat /\
  Forall (fun w => (w_coord w = "longitude"%string \/ w_coord w = "latitude"%string) /\
                   10 <= Rabs (w_delta w))
         (snd (net_horizontal_flux_to_region scalar_cube box u v r_planet vc)).
Proof.
  rewrite net_snd; apply mapM_snd; intros e _; apply boundary_flux_warning_shape.
Qed.

Lemma mapM_all_ok {A B} (f : A -> M B) (l : list A) :
  (forall x, In x l -> exists y, fst (f x) = Ok y) ->
  exists ys, fst (mapM f l) = Ok ys /\ List.length ys = List.length l.
Proof.
  induction l as [|x l IH]; intros H; [exists []; auto |].
  destruct (H x (or_introl eq_refl)) as [y Hy].
  destruct (IH (fun z Hz => H z (or_intror Hz))) as (ys & Hys & Hl).
  exists (y :: ys); cbn [mapM]; rewrite fst_bind_eq, Hy; cbv beta iota;
    rewrite fst_bind_eq, Hys; cbn; auto.
Qed.

(** X9: a box of fewer than four entries never gives a result; when every
    entry's boundary flux is computed, the reduction fails with an
    [IndexError]. *)
Theorem net_flux_short_box (scalar_cube : Cube3) (box : list (string * R))
    (u v : nat -> nat -> nat -> R) (r_planet : R) (vc : option (R -> bool)) :
  (List.length box < 4)%nat ->
  (forall res ws, net_horizontal_flux_to_region scalar_cube box u v r_planet vc <> (Ok res, ws)) /\
  ((forall e, In e box -> exists f, fst (boundary_flux scalar_cube box u v r_planet vc e) = Ok f) ->
   fst (net_horizontal_flux_to_region scalar_cube box u v r_planet vc) = Fail IndexError).
Proof.
  intros Hlen; split.
  - intros res ws H.
    destruct (net_ok_inv _ _ _ _ _ _ _ _ H) as (fs & _ & _ & _ & f3 & Hfs & _ & _ & _ & E3 & _).
    apply Forall2_length in Hfs.
    assert (Hl : (3 < List.length fs)%nat) by (apply nth_error_Some; congruence).
    lia.
  - intros Hall; rewrite net_fst.
    destruct (mapM_all_ok _ _ Hall) as (fs & -> & Hl).
    assert (E3 : nth_error fs 3 = None) by (apply nth_error_None; lia).
    rewrite E3; destruct (nth_error fs 0), (nth_error fs 1), (nth_error fs 2); reflexivity.
Qed.

Lemma net_fails_at (scalar_cube : Cube3) (box : list (string * R))
    (u v : nat -> nat -> nat -> R) (r_planet : R) (vc : option (R -> bool))
    (e : string * R) (er : exc) :
  In e box -> fst (boundary_flux scalar_cube box u v r_planet vc e) = Fail er ->
  forall res ws, net_horizontal_flux_to_region scalar_cube box u v r_planet vc <> (Ok res, ws).
Proof.
  intros Hin Hf res ws H.
  destruct (net_ok_inv _ _ _ _ _ _ _ _ H) as (fs & _ & _ & _ & _ & Hfs & _).
  destruct (Forall2_in_left _ _ _ _ Hfs Hin) as [y Hy].
  rewrite Hf in Hy; discriminate.
Qed.

(** X10: an entry whose key, without its last character, is neither
    "longitude" nor "latitude" fails with a [KeyError] before any warning,
    and the whole call gives no result. *)
Theorem net_flux_unknown_key (scalar_cube : Cube3) (box : list (string * R))
    (u v : nat -> nat -> nat -> R) (r_planet : R) (vc : option (R -> bool))
    (key : string) (val : R) :
  In (key, val) box -> ll_other (drop_last key) = None ->
  boundary_flux scalar_cube box u v r_planet vc (key, val) = (Fail KeyError, []) /\
  forall res ws, net_horizontal_flux_to_region scalar_cube box u v r_planet vc <> (Ok res, ws).
Proof.
  intros Hin Ho.
  assert (Hf : boundary_flux scalar_cube box u v r_planet vc (key, val) = (Fail KeyError, [])).
  { unfold boundary_flux; rewrite boundary_constraint_no_partner by exact Ho; reflexivity. }
  split; [exact Hf |].
  apply (net_fails_at _ _ _ _ _ _ _ KeyError Hin); rewrite Hf; reflexivity.
Qed.

(** X11: an entry whose partner coordinate lacks its "0" or its "1" key in
    the box fails with a [KeyError] once its value is snapped (or with the
    snapping error), and the whole call gives no result. *)
Theorem net_flux_missing_partner_key (scalar_cube : Cube3) (box : list (string * R))
    (u v : nat -> nat -> nat -> R) (r_planet : R) (vc : option (R -> bool))
    (key : string) (val : R) (o : string) :
  In (key, val) box -> ll_other (drop_last key) = Some o ->
  lookup (o ++ "0") box = None \/ lookup (o ++ "1") box = None ->
  (exists d, dim_of_name (drop_last key) = Some d /\
     fst (boundary_flux scalar_cube box u v r_planet vc (key, val)) =
     match nearest_coord_value scalar_cube d val with
     | Ok _ => Fail KeyError
     | Fail e => Fail e
     end) /\
  forall res ws, net_horizontal_flux_to_region scalar_cube box u v r_planet vc <> (Ok res, ws).
Proof.
  intros Hin Ho Hmiss.
  destruct (boundary_constraint_unfold scalar_cube box vc key val o Ho)
    as (d & od & Hd & _ & _ & _ & _ & Heq).
  assert (Hf : fst (boundary_flux scalar_cube box u v r_planet vc (key, val)) =
               match nearest_coord_value scalar_cube d val with
               | Ok _ => Fail KeyError
               | Fail e => Fail e
               end).
  { unfold boundary_flux; rewrite fst_bind_eq, Heq.
    destruct (nearest_coord_value scalar_cube d val); [| reflexivity]; cbn [fst].
    destruct Hmiss as [-> | ->]; [reflexivity |].
    destruct (lookup (o ++ "0") box); reflexivity. }
  split; [exists d; split; assumption |].
  destruct (nearest_coord_value scalar_cube d val) as [n|er];
    apply (net_fails_at _ _ _ _ _ _ _ _ Hin Hf).
Qed.


Lemma interp_01 (p q f g x : R) :
  p <= x < q -> 0 <= f <= 1 -> 0 <= g <= 1 -> 0 <= (g - f) / (q - p) * (x - p) + f <= 1.
Proof.
  intros Hx Hf Hg.
  pose proof (frac_01 (x - p) (q - p) ltac:(lra) ltac:(lra)) as Ht.
  replace ((g - f) / (q - p) * (x - p) + f) with ((1 - (x - p) / (q - p)) * f + (x - p) / (q - p) * g)
    by (field; lra).
  split; nra.
Qed.

(** X12: [MidpointNormalize.__call__] always returns a value in [0, 1],
    whatever the order of [vmin], [midpoint] and [vmax]. *)
Theorem mn_call_range (n : MidpointNormalize) (x : R) : 0 <= mn_call n x <= 1.
Proof.
  destruct n as [a b c]; unfold mn_call, np_interp, search, Rleb, Rltb, Reqb; cbn.
  rcases; try lra; apply interp_01; lra.
Qed.

(** X13: with the midpoint halfway between [vmin < vmax],
    [MidpointNormalize.__call__] is the plain linear normalisation
    [(x - vmin) / (vmax - vmin)] clipped to 0 below [vmin] and to 1 from
    [vmax] on. *)
Theorem mn_call_centered (vmin0 vmax0 x : R) :
  vmin0 < vmax0 ->
  mn_call (mkMidpointNormalize vmin0 vmax0 ((vmin0 + vmax0) / 2)) x =
  if Rltb x vmin0 then 0
  else if Rltb x vmax0 then (x - vmin0) / (vmax0 - vmin0)
  else 1.
Proof.
  intros H.
  rewrite mn_call_pieces by (cbn; lra).
  unfold mn_pieces; cbn [vmin vmax midpoint]; rcases; try lra; field; lra.
Qed.

(** X14: for [vmin < midpoint < vmax], negating the anchors (the new
    [vmin] is [-vmax], the new [vmax] is [-vmin]) and the input gives
    [1 - ] the original value. *)
Theorem mn_call_reflect (n : MidpointNormalize) (x : R) :
  vmin n < midpoint n < vmax n ->
  mn_call (mkMidpointNormalize (- vmax n) (- vmin n) (- midpoint n)) (- x) = 1 - mn_call n x.
Proof.
  intros H.
  rewrite !mn_call_pieces by (cbn; lra).
  destruct n as [a b c]; unfold mn_pieces; cbn [vmin vmax midpoint] in *.
  rcases; try lra;
    try (replace x with b by lra); try (replace x with a by lra);
    try (replace x with c by lra); field; lra.
Qed.

Lemma vcs_area_result_coords_witness :
  let k := mkCube [mkCoord Height [0; 1] None; mkCoord Latitude [0; 10] None] [] (fun _ => 1) in
  exists a, vertical_cross_section_area k 1 = Ok a /\
    (List.length (dim_coords k) = 2%nat /\
     dim_coords a = map strip_bounds (dim_coords k) /\ aux_coords a = aux_coords k).
Proof.
  intros k; eexists; split; [reflexivity |].
  apply (vcs_area_result_coords k 1); reflexivity.
Defined.

Lemma vcs_area_sign_witness :
  exists a, vertical_cross_section_area
              (mkCube [mkCoord Height [0; 1] None; mkCoord Latitude [10; 0] None] [] (fun _ => 1)) 1
            = Ok a /\
    forall i j, (i < 2)%nat -> (j < 2)%nat -> 0 < 1 * -1 * cdata a [i; j].
Proof.
  apply (vcs_area_sign (mkCoord Height [0; 1] None) (mkCoord Latitude [10; 0] None) []
           (fun _ => 1) 1 1 (-1));
    cbn; try reflexivity; try lra; try lia;
    try (intros j Hj; destruct j as [|j]; [cbn; lra | lia]);
    intros H; discriminate H.
Defined.


Lemma net_flux_scalar_linear_witness :
  let sc := with_values ex_cube (fun i j l => 2 * values ex_cube i j l + 3 * values ex_cube i j l) in
  fst (net_horizontal_flux_to_region sc (latlon_box 0 10 0 10) ex_u no_wind 1 None) =
  match fst (net_horizontal_flux_to_region ex_cube (latlon_box 0 10 0 10) ex_u no_wind 1 None),
        fst (net_horizontal_flux_to_region ex_cube (latlon_box 0 10 0 10) ex_u no_wind 1 None) with
  | Ok x, Ok y => Ok (2 * x + 3 * y)
  | Fail e, _ => Fail e
  | Ok _, Fail e => Fail e
  end.
Proof.
  intros sc; apply (net_flux_scalar_linear ex_cube ex_cube sc); reflexivity.
Defined.

Lemma net_flux_short_box_witness :
  let box := [("longitude0"%string, 0)] in
  (List.length box < 4)%nat /\
  (forall res ws, net_horizontal_flux_to_region ex_cube box ex_u no_wind 1 None <> (Ok res, ws)) /\
  ((forall e, In e box -> exists f, fst (boundary_flux ex_cube box ex_u no_wind 1 None e) = Ok f) ->
   fst (net_horizontal_flux_to_region ex_cube box ex_u no_wind 1 None) = Fail IndexError).
Proof.
  intros box; split; [cbn; lia |].
  apply (net_flux_short_box ex_cube box); cbn; lia.
Defined.

Lemma net_flux_unknown_key_witness :
  let box := [("height0"%string, 0)] in
  ll_other (drop_last "height0") = None /\
  boundary_flux ex_cube box ex_u no_wind 1 None ("height0"%string, 0) = (Fail KeyError, []) /\
  forall res ws, net_horizontal_flux_to_region ex_cube box ex_u no_wind 1 None <> (Ok res, ws).
Proof.
  intros box; split; [reflexivity |].
  apply (net_flux_unknown_key ex_cube box); [left; reflexivity | reflexivity].
Defined.

Lemma net_flux_missing_partner_key_witness :
  let box := [("longitude0"%string, 0)] in
  (exists d, dim_of_name (drop_last "longitude0") = Some d /\
     fst (boundary_flux ex_cube box ex_u no_wind 1 None ("longitude0"%string, 0)) =
     match nearest_coord_value ex_cube d 0 with
     | Ok _ => Fail KeyError
     | Fail e => Fail e
     end) /\
  forall res ws, net_horizontal_flux_to_region ex_cube box ex_u no_wind 1 None <> (Ok res, ws).
Proof.
  intros box.
  apply (net_flux_missing_partner_key ex_cube box ex_u no_wind 1 None "longitude0" 0 "latitude");
    [left; reflexivity | reflexivity | left; reflexivity].
Defined.

Lemma mn_call_centered_witness :
  mn_call (mkMidpointNormalize 0 2 ((0 + 2) / 2)) 1 =
  (if Rltb 1 0 then 0 else if Rltb 1 2 then (1 - 0) / (2 - 0) else 1).
Proof. apply mn_call_centered; lra. Defined.

Lemma mn_call_reflect_witness :
  let n := mkMidpointNormalize 0 2 1 in
  mn_call (mkMidpointNormalize (- vmax n) (- vmin n) (- midpoint n)) (- (1 / 2)) =
  1 - mn_call n (1 / 2).
Proof. intros n; apply mn_call_reflect; cbn; lra. Defined.
